(** * file-picker-pro: the pick command (src/commands/pick.ts)

    A shallow embedding of the path-resolution and variable-substitution
    engine, the env-file parser, the quick-pick navigation loop and the
    output formatter, followed by the properties established about them.

    Conventions.
    - A JavaScript string is a [string]; its characters are the code units
      below 256, so the white space of [trim] and of the regular-expression
      class [\s] is TAB, LF, VT, FF, CR, SPACE and NBSP.
    - [undefined] and [null] are [None].
    - The editor's [Uri] and Node's [basename] are an interface
      ([Platform]); the properties hold for every implementation, and a POSIX
      implementation ([Posix]) is given to run the code on concrete inputs.
    - A thrown exception or a rejected promise is [Threw]; a prompt the
      user never answers is [Pending]. *)

From Stdlib Require Import Ascii NArith Lia.
From Stdlib Require String.
From stdpp Require Import base option list strings gmap.

Local Open Scope N_scope.

(** ** JavaScript strings *)

Module Js.

(** White space of [String.prototype.trim] and of [\s]. *)
Definition isSpace (c : ascii) : bool :=
  match c with
  | "009" | "010" | "011" | "012" | "013" | " " | "160" => true
  | _ => false
  end%char.

(** The class [\w]: letters, digits and the underscore. *)
Definition isWord (c : ascii) : bool :=
  let n := N_of_ascii c in
  ((48 <=? n) && (n <=? 57)) || ((65 <=? n) && (n <=? 90))
  || ((97 <=? n) && (n <=? 122)) || (n =? 95).

(** The characters the regular-expression dot does not match. *)
Definition isLineTerminator (c : ascii) : bool :=
  match c with
  | "010" | "013" => true
  | _ => false
  end%char.

Fixpoint allChars (p : ascii -> bool) (s : string) : bool :=
  match s with
  | "" => true
  | String c s' => p c && allChars p s'
  end.

Fixpoint trimStart (s : string) : string :=
  match s with
  | "" => ""
  | String c s' => if isSpace c then trimStart s' else s
  end.

Fixpoint trimEnd (s : string) : string :=
  match s with
  | "" => ""
  | String c s' =>
      match trimEnd s' with
      | "" => if isSpace c then "" else String c ""
      | t => String c t
      end
  end.

Definition trim (s : string) : string := trimEnd (trimStart s).

(** [s] without its prefix [p], when [s] starts with [p]. *)
Fixpoint dropPrefix (p s : string) : option string :=
  match p with
  | "" => Some s
  | String a p' =>
      match s with
      | "" => None
      | String b s' => if Ascii.eqb a b then dropPrefix p' s' else None
      end
  end.

(** [s.startsWith(p)] *)
Definition startsWith (s p : string) : bool :=
  match dropPrefix p s with
  | Some _ => true
  | None => false
  end.

(** [s.endsWith(p)] *)
Fixpoint endsWith (s p : string) : bool :=
  String.eqb s p
  || match s with
     | "" => false
     | String _ s' => endsWith s' p
     end.

(** [s.split(sep)] for a one-character separator, as the first piece and
    the remaining pieces: [const [key, ...valueParts] = line.split('=')]. *)
Fixpoint splitGo (sep : ascii) (s : string) : string * list string :=
  match s with
  | "" => ("", [])
  | String c s' =>
      let '(p, ps) := splitGo sep s' in
      if Ascii.eqb c sep then ("", p :: ps) else (String c p, ps)
  end.

Definition split (sep : ascii) (s : string) : list string :=
  let '(p, ps) := splitGo sep s in p :: ps.

(** [s.split(/\r?\n/)] *)
Fixpoint splitLinesGo (s : string) : string * list string :=
  match s with
  | "" => ("", [])
  | String c s' =>
      let '(p, ps) := splitLinesGo s' in
      if Ascii.eqb c "010" then ("", p :: ps)
      else if Ascii.eqb c "013" && startsWith s' (String "010" "")
           then ("", ps)
           else (String c p, ps)
  end.

Definition splitLines (s : string) : list string :=
  let '(p, ps) := splitLinesGo s in p :: ps.

(** [l.join(sep)] *)
Fixpoint join (sep : string) (l : list string) : string :=
  match l with
  | [] => ""
  | x :: xs =>
      match xs with
      | [] => x
      | _ :: _ => x +:+ sep +:+ join sep xs
      end
  end.

Fixpoint unsnoc (s : string) : option (string * ascii) :=
  match s with
  | "" => None
  | String c s' =>
      match unsnoc s' with
      | None => Some ("", c)
      | Some (i, l) => Some (String c i, l)
      end
  end.

(** [s.replace(re, '$1')] where [re] is: start of string, the quote
    character [q], a greedy group of any characters but line terminators,
    [q] again, end of string. *)
Definition stripQuotes (q : ascii) (s : string) : string :=
  match s with
  | "" => s
  | String c rest =>
      match unsnoc rest with
      | None => s
      | Some (inner, l) =>
          if Ascii.eqb c q && Ascii.eqb l q
             && allChars (fun x => negb (isLineTerminator x)) inner
          then inner
          else s
      end
  end.

(** A string is truthy when it is not empty. *)
Definition truthy (s : string) : bool :=
  match s with
  | "" => false
  | String _ _ => true
  end.

(** The longest prefix of word characters, and the rest. *)
Fixpoint spanWord (s : string) : string * string :=
  match s with
  | "" => ("", "")
  | String c s' =>
      if isWord c
      then let '(w, r) := spanWord s' in (String c w, r)
      else ("", s)
  end.

End Js.

(** ** The host: editor and runtime capabilities *)

(** [Uri] of the editor API ([Uri.parse], [Uri.joinPath], [uri.path],
    [uri.fsPath]) and [basename] of Node's [path] module. [Uri.parse] throws
    a [UriError] on a string it rejects (a scheme with illegal characters, a
    path that starts with two separators and has no authority): it is
    [None] there. [Uri.joinPath] is used on locations that have a path. *)
Class Platform := {
  Uri : Type;
  Uri_parse : string -> option Uri;
  Uri_joinPath : Uri -> string -> Uri;
  Uri_path : Uri -> string;
  Uri_fsPath : Uri -> string;
  basename : string -> string;
}.

(** [FileType] of the editor API, a bit mask: an entry can be
    [File | SymbolicLink]. *)
Definition FileType := N.

Module FileType.
Definition Unknown : FileType := 0.
Definition File : FileType := 1.
Definition Directory : FileType := 2.
Definition SymbolicLink : FileType := 64.
End FileType.

(** The outcome of an asynchronous operation. *)
Inductive Outcome (A : Type) : Type :=
| Ret (a : A)
| Threw
| Pending.

Arguments Ret {A} a.
Arguments Threw {A}.
Arguments Pending {A}.

Definition bind {A B : Type} (m : Outcome A) (k : A -> Outcome B) : Outcome B :=
  match m with
  | Ret a => k a
  | Threw => Threw
  | Pending => Pending
  end.

#[global] Instance Outcome_bind : MBind Outcome := fun A B k m => bind m k.

(** [type Options], the fields the command reads. *)
Record Options := {
  path : option string;
  native : bool;
  canSelectFiles : bool;
  canSelectFolders : bool;
  canChangeFolder : bool;
  canSelectMany : bool;
  filterRegExp : option string;
  filterExt : option string;
  defaultInputPath : option string;
  defaultWorkspace : option string;
  defaultEnvFile : option string;
  title : option string;
}.

(** [FullParam["output"]]; the field [default] is [default_]. *)
Record Output := {
  join : string;
  fsPath : bool;
  defaultPath : option string;
  default_ : option string;
}.

Record FullParam := {
  options : Options;
  output : Output;
}.

(** [RPartial<FullParam>]: every field may be absent. *)
Record PartialOptions := {
  p_path : option string;
  p_native : option bool;
  p_canSelectFiles : option bool;
  p_canSelectFolders : option bool;
  p_canChangeFolder : option bool;
  p_canSelectMany : option bool;
  p_filterRegExp : option string;
  p_filterExt : option string;
  p_defaultInputPath : option string;
  p_defaultWorkspace : option string;
  p_defaultEnvFile : option string;
  p_title : option string;
}.

Record PartialOutput := {
  p_join : option string;
  p_fsPath : option bool;
  p_defaultPath : option string;
  p_default : option string;
}.

(** [type Param = string | RPartial<FullParam>] *)
Inductive Param : Type :=
| ParamString (s : string)
| ParamObject (o : option PartialOptions) (out : option PartialOutput).

Section Host.

Context `{Platform}.

(** [WorkspaceFolder] of the editor API. *)
Record WorkspaceFolder := {
  wf_uri : Uri;
  wf_name : string;
}.

(** [QuickPickItem & { uri: Uri; type: FileType }], with the [name] the
    code adds. *)
Record Item := {
  item_uri : Uri;
  item_name : string;
  item_type : FileType;
  item_label : string;
}.

(** What [showQuickPick] resolves to: [undefined], one item, or an array
    of items. *)
Inductive PickResult : Type :=
| Cancelled
| One (i : Item)
| Many (l : list Item).

(** What the command reads from its surroundings. *)
Record Host := {
  (** [workspace.workspaceFolders] *)
  workspaceFolders : option (list WorkspaceFolder);
  (** [fs.readFile] followed by the UTF-8 decoding; [None] when it
      rejects. *)
  readFile : Uri -> option string;
  (** [fs.readDirectory]; [None] when it rejects. *)
  readDirectory : Uri -> option (list (string * FileType));
  (** [process.env] *)
  processEnv : string -> option string;
  (** [RegExp(pattern)], [None] when the pattern is malformed, and the
      [test] method of the result. *)
  regExp : string -> option (string -> bool);
  (** [showOpenDialog], the answer of the user to the native dialog. *)
  showOpenDialog : Options -> option Uri -> option (list Uri);
}.

End Host.

Arguments WorkspaceFolder {_}.
Arguments Item {_}.
Arguments PickResult {_}.
Arguments Host {_}.

(** ** Argument normalizer *)

Definition defaultOptions : Options :=
  {| path := None; native := false; canSelectFiles := true;
     canSelectFolders := false; canChangeFolder := false;
     canSelectMany := false; filterRegExp := None; filterExt := None;
     defaultInputPath := None; defaultWorkspace := None;
     defaultEnvFile := None; title := None |}.

Definition defaultOutput : Output :=
  {| join := ","; fsPath := true; defaultPath := None; default_ := None |}.

Definition defaultParam : FullParam :=
  {| options := defaultOptions; output := defaultOutput |}.

(** [a ?? b] on an optional field. *)
Definition orElse {A : Type} (a b : option A) : option A :=
  match a with
  | Some _ => a
  | None => b
  end.

(** [{ ...d, ...o }] on options. *)
Definition mergeOptions (d : Options) (o : option PartialOptions) : Options :=
  match o with
  | None => d
  | Some o =>
      {| path := orElse (p_path o) (path d);
         native := default (native d) (p_native o);
         canSelectFiles := default (canSelectFiles d) (p_canSelectFiles o);
         canSelectFolders := default (canSelectFolders d) (p_canSelectFolders o);
         canChangeFolder := default (canChangeFolder d) (p_canChangeFolder o);
         canSelectMany := default (canSelectMany d) (p_canSelectMany o);
         filterRegExp := orElse (p_filterRegExp o) (filterRegExp d);
         filterExt := orElse (p_filterExt o) (filterExt d);
         defaultInputPath := orElse (p_defaultInputPath o) (defaultInputPath d);
         defaultWorkspace := orElse (p_defaultWorkspace o) (defaultWorkspace d);
         defaultEnvFile := orElse (p_defaultEnvFile o) (defaultEnvFile d);
         title := orElse (p_title o) (title d) |}
  end.

(** [{ ...d, ...o }] on the output settings. *)
Definition mergeOutput (d : Output) (o : option PartialOutput) : Output :=
  match o with
  | None => d
  | Some o =>
      {| join := default (join d) (p_join o);
         fsPath := default (fsPath d) (p_fsPath o);
         defaultPath := orElse (p_defaultPath o) (defaultPath d);
         default_ := orElse (p_default o) (default_ d) |}
  end.

Definition parseArgs (param : option Param) : FullParam :=
  match param with
  | Some (ParamString s) =>
      {| options :=
           mergeOptions defaultOptions
             (Some {| p_path := Some s; p_native := None;
                      p_canSelectFiles := None; p_canSelectFolders := None;
                      p_canChangeFolder := None; p_canSelectMany := None;
                      p_filterRegExp := None; p_filterExt := None;
                      p_defaultInputPath := None; p_defaultWorkspace := None;
                      p_defaultEnvFile := None; p_title := None |});
         output := output defaultParam |}
  | Some (ParamObject o out) =>
      {| options := mergeOptions (options defaultParam) o;
         output := mergeOutput (output defaultParam) out |}
  | None =>
      {| options := mergeOptions (options defaultParam) None;
         output := mergeOutput (output defaultParam) None |}
  end.

(** ** Env-file parser *)

(** The body of the loop of [parseEnvContent]: the binding a line adds to the
    map, if any. *)
Definition lineEntry (line : string) : option (string * string) :=
  if String.eqb (Js.trim line) "" || Js.startsWith (Js.trim line) "#"
  then None
  else
    let '(key, valueParts) := Js.splitGo "=" line in
    if Js.truthy key
    then
      let value :=
        Js.stripQuotes "'"
          (Js.stripQuotes "034" (Js.trim (Js.join "=" valueParts))) in
      Some (Js.trim key, value)
    else None.

Definition parseEnvContent (envContent : string) : gmap string string :=
  fold_left
    (fun envMap line =>
       match lineEntry line with
       | Some (key, value) => <[key := value]> envMap
       | None => envMap
       end)
    (Js.splitLines envContent) ∅.

(** ** Environment substitution *)

(** One match of the pattern of [resolveEnvVariables] at the start of [s]:
    the text [${env:], any white space, one or more word characters (the
    variable name) and a closing brace. Yields the name and what follows the
    match. Both repetitions are greedy and cannot give anything back: white
    space, word characters and the brace exclude one another. *)
Definition matchPlaceholder (s : string) : option (string * string) :=
  match Js.dropPrefix "${env:" s with
  | None => None
  | Some t =>
      let '(name, r) := Js.spanWord (Js.trimStart t) in
      match name, r with
      | String _ _, String "}" rest => Some (name, rest)
      | _, _ => None
      end
  end.

(** [s.replace(re, f)] for the global pattern above: scan from the left;
    where the pattern matches, put [f name] and go on after the match;
    elsewhere keep the character. A match is never empty, so the text left
    always gets shorter: [fuel] bounds the number of steps. *)
Fixpoint replaceGo (fuel : nat) (f : string -> string) (s : string) : string :=
  match fuel with
  | O => s
  | S fuel' =>
      match s with
      | "" => ""
      | String c s' =>
          match matchPlaceholder s with
          | Some (name, rest) => f name +:+ replaceGo fuel' f rest
          | None => String c (replaceGo fuel' f s')
          end
      end
  end.

Definition replaceEnv (f : string -> string) (s : string) : string :=
  replaceGo (String.length s) f s.

Section Resolve.

Context `{Platform}.
Variable h : Host.

(** [workspaceFolders?.find(p)] *)
Definition findFolder (p : WorkspaceFolder -> bool) : option WorkspaceFolder :=
  match workspaceFolders h with
  | None => None
  | Some fs => List.find p fs
  end.

(** [Uri.parse(s)] where a [UriError] leaves the function. *)
Definition parseUri (s : string) : Outcome Uri :=
  match Uri_parse s with
  | Some uri => Ret uri
  | None => Threw
  end.

(** Where the env file is: [resolveEnvPath]. *)
Definition resolveEnvPath (filePath : string) (defaultWorkspace : option string)
  : Outcome (option Uri) :=
  if Js.startsWith filePath "/"
  then uri ← parseUri filePath; Ret (Some uri)
  else
    (* [filePath == null] cannot hold: [filePath] is a string *)
    match workspaceFolders h with
    | Some [f] => Ret (Some (Uri_joinPath (wf_uri f) filePath))
    | _ =>
        parsed ← parseUri filePath;
        let defaultPath := Uri_path parsed in
        match findFolder (fun f =>
                Js.startsWith defaultPath (basename (Uri_path (wf_uri f)) +:+ "/")) with
        | Some workspaceFolder =>
            Ret (Some (Uri_joinPath (wf_uri workspaceFolder) filePath))
        | None =>
            match defaultWorkspace with
            | Some (String _ _ as dw) =>
                match findFolder (fun f => String.eqb (wf_name f) dw) with
                | Some workspaceFolder =>
                    Ret (Some (Uri_joinPath (wf_uri workspaceFolder) filePath))
                | None => Ret None
                end
            | _ => Ret None
            end
        end
    end.

(** The [try] block reads the file at the resolved location; an exception
    of [resolveEnvPath], an unresolved location ([fs.readFile(undefined)])
    and a failed read all end in the [catch], which returns the empty
    string. *)
Definition readWorkspaceFile (filePath : string) (defaultWorkspace : option string)
  : string :=
  match resolveEnvPath filePath defaultWorkspace with
  | Ret (Some uri) =>
      match readFile h uri with
      | Some content => content
      | None => ""
      end
  | _ => ""
  end.

(** The callback of the replacement: the value of the env file, else the
    value of the process environment, else the empty string. *)
Definition envValue (envMap : gmap string string) (variableName : string) : string :=
  let value :=
    match envMap !! variableName with
    | Some v => Some v
    | None => processEnv h variableName
    end in
  match value with
  | Some v => v
  | None => ""
  end.

Definition resolveEnvVariables (path defaultEnvFile defaultWorkspace : option string)
  : string :=
  match path with
  | None | Some "" => ""
  | Some path =>
      let envMap : gmap string string :=
        match defaultEnvFile with
        | Some (String _ _ as envFile) =>
            parseEnvContent (readWorkspaceFile envFile (Some envFile))
        | _ => ∅
        end in
      replaceEnv (envValue envMap) path
  end.

Definition resolvePath (defaultWorkspace defaultInputPath defaultEnvFile path : option string)
  : Outcome (option Uri) :=
  match path with
  | None =>
      match workspaceFolders h with
      | Some (f :: _) => Ret (Some (wf_uri f))
      | _ => Ret None
      end
  | Some _ =>
      let path := resolveEnvVariables path defaultEnvFile defaultWorkspace in
      if Js.startsWith path "/"
      then uri ← parseUri path; Ret (Some uri)
      else
        let path :=
          match defaultInputPath with
          | Some (String _ _ as d) => if String.eqb path "" then d else path
          | _ => path
          end in
        match workspaceFolders h with
        | Some [f] => Ret (Some (Uri_joinPath (wf_uri f) path))
        | _ =>
            parsed ← parseUri path;
            let defaultPath := Uri_path parsed in
            match findFolder (fun f =>
                    Js.startsWith defaultPath (basename (Uri_path (wf_uri f)) +:+ "/")) with
            | Some workspaceFolder =>
                Ret (Some (Uri_joinPath (wf_uri workspaceFolder) path))
            | None =>
                match defaultWorkspace with
                | Some (String _ _ as dw) =>
                    match findFolder (fun f => String.eqb (wf_name f) dw) with
                    | Some workspaceFolder =>
                        Ret (Some (Uri_joinPath (wf_uri workspaceFolder) path))
                    | None => Ret None
                    end
                | _ => Ret None
                end
            end
        end
  end.

End Resolve.

(** ** Quick-pick navigation *)

Section Navigation.

Context `{Platform}.
Variable h : Host.

(** The objects [{ uri, name, type }] the list is filtered on. *)
Record Entry := {
  e_uri : Uri;
  e_name : string;
  e_type : FileType;
}.

Definition mkEntry (dir : Uri) (c : string * FileType) : Entry :=
  {| e_uri := Uri_joinPath dir c.1; e_name := c.1; e_type := c.2 |}.

(** The last [map]: a directory is labelled with a trailing slash. *)
Definition mkItem (e : Entry) : Item :=
  {| item_uri := e_uri e; item_name := e_name e; item_type := e_type e;
     item_label :=
       if e_type e =? FileType.Directory then e_name e +:+ "/" else e_name e |}.

(** [l.filter(p)] for a predicate that can throw. *)
Fixpoint filterOutcome {A : Type} (p : A -> Outcome bool) (l : list A)
  : Outcome (list A) :=
  match l with
  | [] => Ret []
  | x :: xs =>
      b ← p x;
      r ← filterOutcome p xs;
      Ret (if b : bool then x :: r else r)
  end.

(** The predicate of the first filter; [RegExp(regx)] throws on a
    malformed pattern. *)
Definition regExpFilter (regx : option string) (e : Entry) : Outcome bool :=
  if e_type e =? FileType.Directory then Ret true
  else
    match regx with
    | None => Ret true
    | Some r =>
        match regExp h r with
        | None => Threw
        | Some test => Ret (test (Uri_path (e_uri e)))
        end
    end.

Definition extFilter (ext : option string) (e : Entry) : bool :=
  (e_type e =? FileType.Directory)
  || match ext with
     | None => true
     | Some x => Js.endsWith (Uri_path (e_uri e)) x
     end.

Definition folderFilter (opts : Options) (e : Entry) : bool :=
  negb (e_type e =? FileType.Directory)
  || canSelectFolders opts || canChangeFolder opts.

Definition fileFilter (opts : Options) (e : Entry) : bool :=
  negb (e_type e =? FileType.File) || canSelectFiles opts.

(** The first argument of [showQuickPick]: the list shown for the
    directory [dir] with the entries [children]. *)
Definition quickItems (opts : Options) (dir : Uri)
  (children : list (string * FileType)) : Outcome (list Item) :=
  let all :=
    (if canChangeFolder opts then [("..", FileType.Directory)] else [])
    ++ (if canSelectFolders opts then [(".", FileType.Directory)] else [])
    ++ children in
  l ← filterOutcome (regExpFilter (filterRegExp opts)) (map (mkEntry dir) all);
  Ret (map mkItem
         (List.filter (fileFilter opts)
            (List.filter (folderFilter opts)
               (List.filter (extFilter (filterExt opts)) l)))).

(** The states of the navigation. *)
Inductive State : Type :=
| Browsing (dir : Uri)
| Terminal (selections : option (list Uri)).

(** Entering [Browsing dir]: the directory is normalised and read, and the
    list to show is built. *)
Definition enterBrowsing (opts : Options) (dir : Uri) : Outcome (Uri * list Item) :=
  let dir := Uri_joinPath dir "." in
  children ← match readDirectory h dir with
             | Some c => Ret c
             | None => Threw
             end;
  shown ← quickItems opts dir children;
  Ret (dir, shown).

(** [items]: nothing when the prompt was cancelled ([res == null]), else
    [Array.isArray(res) ? res : [res]]. *)
Definition itemsOf (res : PickResult) : option (list Item) :=
  match res with
  | Cancelled => None
  | One i => Some [i]
  | Many l => Some l
  end.

(** What follows the answer [res] of the prompt, in the directory [dir]
    (already normalised). *)
Definition afterPrompt (opts : Options) (dir : Uri) (res : PickResult) : State :=
  match itemsOf res with
  | None => Terminal None
  | Some items =>
      match items with
      | [i] =>
          if canChangeFolder opts
             && (item_type i =? FileType.Directory)
             && negb (String.eqb (Uri_path (item_uri i)) (Uri_path dir))
          then Browsing (item_uri i)
          else Terminal (Some (map item_uri items))
      | _ => Terminal (Some (map item_uri items))
      end
  end.

(** [pickWithQuick]. The user is a script: one answer per prompt, each a
    function of the list shown. When the script is used up the prompt
    stays open. *)
Fixpoint pickWithQuick (script : list (list Item -> PickResult)) (dir : Uri)
  (opts : Options) : Outcome (option (list Uri)) :=
  match enterBrowsing opts dir with
  | Ret (dir, shown) =>
      match script with
      | [] => Pending
      | answer :: script' =>
          match afterPrompt opts dir (answer shown) with
          | Browsing next => pickWithQuick script' next opts
          | Terminal selections => Ret selections
          end
      end
  | Threw => Threw
  | Pending => Pending
  end.

Definition pickWithNative (dir : option Uri) (opts : Options) : option (list Uri) :=
  showOpenDialog h opts dir.

(** ** Output formatter *)

Definition formatUris (uris : option (list Uri)) (out : Output) : option string :=
  match uris with
  | None => None
  | Some us =>
      Some (Js.join (join out)
              (map (fun uri => if fsPath out then Uri_fsPath uri else Uri_path uri) us))
  end.

(** ** The pick operation *)

(** The selection of [pickHandler]: the native dialog or the quick pick,
    from the resolved root. *)
Definition pickUris (script : list (list Item -> PickResult)) (p : FullParam)
  : Outcome (option (list Uri)) :=
  let opts := options p in
  root ← resolvePath h (defaultWorkspace opts) (defaultInputPath opts)
           (defaultEnvFile opts) (path opts);
  if native opts
  then Ret (pickWithNative root opts)
  else
    dir ← match root with
          | Some uri => Ret uri
          | None => parseUri ""
          end;
    pickWithQuick script dir opts.

(** The rest of [pickHandler], from the test [uris != null] on. *)
Definition pickResult (p : FullParam) (uris : option (list Uri))
  : Outcome (option string) :=
  let opts := options p in
  let out := output p in
  match uris with
  | Some _ => Ret (formatUris uris out)
  | None =>
      match default_ out with
      | Some d => Ret (Some d)
      | None =>
          match defaultPath out with
          | Some dp =>
              defaultUri ← resolvePath h (defaultWorkspace opts)
                             (defaultInputPath opts) (defaultEnvFile opts)
                             (Some dp);
              let formated :=
                match defaultUri with
                | Some u => formatUris (Some [u]) out
                | None => None
                end in
              Ret (orElse formated (Some dp))
          | None => Ret None
          end
      end
  end.

Definition pickHandler (script : list (list Item -> PickResult))
  (args : option Param) : Outcome (option string) :=
  let p := parseArgs args in
  uris ← pickUris script p;
  pickResult p uris.

End Navigation.

(** ** A POSIX platform *)

Module Posix.

(** The loop of Node's [normalizeString] on the segments of a path, as a
    stack (last segment first): empty and [.] segments are dropped, [..]
    removes the segment before it, or is kept when there is none and the
    path is relative. *)
Definition pushSegment (allowAboveRoot : bool) (st : list string) (seg : string)
  : list string :=
  if String.eqb seg "" || String.eqb seg "." then st
  else if String.eqb seg ".."
  then
    match st with
    | top :: st' =>
        if String.eqb top ".."
        then (if allowAboveRoot then seg :: st else st)
        else st'
    | [] => if allowAboveRoot then [seg] else []
    end
  else seg :: st.

(** [path.posix.normalize] *)
Definition normalize (p : string) : string :=
  if String.eqb p "" then "."
  else
    let isAbsolute := Js.startsWith p "/" in
    let trailingSeparator := Js.endsWith p "/" in
    let body :=
      Js.join "/"
        (rev (fold_left (pushSegment (negb isAbsolute)) (Js.split "/" p) [])) in
    if String.eqb body ""
    then (if isAbsolute then "/" else if trailingSeparator then "./" else ".")
    else (if isAbsolute then "/" else "") +:+ body
         +:+ (if trailingSeparator then "/" else "").

(** [path.posix.join(a, b)] *)
Definition pathJoin (a b : string) : string :=
  let joined :=
    if String.eqb a "" then b
    else if String.eqb b "" then a
    else a +:+ "/" +:+ b in
  if String.eqb joined "" then "." else normalize joined.

(** [path.posix.basename]: the last segment, trailing separators apart. *)
Definition basename (p : string) : string :=
  List.last (List.filter Js.truthy (Js.split "/" p)) "".

(** A location: the five components of the editor's [Uri]. *)
Record uri := {
  scheme : string;
  authority : string;
  upath : string;
  query : string;
  fragment : string;
}.

(** The [file] location of an absolute path. *)
Definition file (p : string) : uri :=
  {| scheme := "file"; authority := ""; upath := p; query := "";
     fragment := "" |}.

(** The longest prefix of characters that pass [keep], and the rest. *)
Fixpoint span (keep : ascii -> bool) (s : string) : string * string :=
  match s with
  | "" => ("", "")
  | String c s' =>
      if keep c
      then let '(a, r) := span keep s' in (String c a, r)
      else ("", s)
  end.

Definition isDelimiter (c : ascii) : bool :=
  Ascii.eqb c ":" || Ascii.eqb c "/" || Ascii.eqb c "?" || Ascii.eqb c "#".

(** The scheme of the parsing expression: the text before the first colon,
    when it is not empty and holds no [/], [?] or [#]. *)
Definition splitScheme (s : string) : string * string :=
  match span (fun c => negb (isDelimiter c)) s with
  | (String c a, String ":" r) => (String c a, r)
  | _ => ("", s)
  end.

(** The authority: what follows a leading [//], up to [/], [?] or [#]. *)
Definition splitAuthority (s : string) : string * string :=
  match s with
  | String "/" (String "/" r) =>
      span (fun c => negb (Ascii.eqb c "/" || Ascii.eqb c "?" || Ascii.eqb c "#")) r
  | _ => ("", s)
  end.

(** The pattern of a scheme: a word character, then word characters, [+],
    [.] and [-]. *)
Definition validScheme (sch : string) : bool :=
  match sch with
  | "" => false
  | String c r =>
      Js.isWord c
      && Js.allChars
           (fun x => Js.isWord x || Ascii.eqb x "+" || Ascii.eqb x "."
                     || Ascii.eqb x "-") r
  end.

(** The path of a [file], [http] or [https] location starts with a
    separator. *)
Definition referenceResolution (sch p : string) : string :=
  if String.eqb sch "file" || String.eqb sch "http" || String.eqb sch "https"
  then (if Js.startsWith p "/" then p else "/" +:+ p)
  else p.

(** [Uri.parse] (not strict) on a string without percent escapes: the
    components are cut at the first colon, [//], [?] and [#]; a missing
    scheme is [file]; the result is validated, and a scheme with illegal
    characters, or a path that starts with [//] where there is no
    authority, is a [UriError]. *)
Definition parse (s : string) : option uri :=
  let '(sch, r) := splitScheme s in
  let '(auth, r) := splitAuthority r in
  let '(p, r) := span (fun c => negb (Ascii.eqb c "?" || Ascii.eqb c "#")) r in
  let '(q, r) :=
    match r with
    | String "?" r' => span (fun c => negb (Ascii.eqb c "#")) r'
    | _ => ("", r)
    end in
  let frag :=
    match r with
    | String "#" r' => fst (span (fun c => negb (Js.isLineTerminator c)) r')
    | _ => ""
    end in
  let sch := if String.eqb sch "" then "file" else sch in
  let p := referenceResolution sch p in
  if negb (validScheme sch) then None
  else if String.eqb auth "" && Js.startsWith p "//" then None
  else Some {| scheme := sch; authority := auth; upath := p; query := q;
               fragment := frag |}.

(** [Uri.joinPath] on a location that has a path: the path is joined and
    normalised, the other components are kept. *)
Definition joinPath (u : uri) (fragmentPath : string) : uri :=
  {| scheme := scheme u; authority := authority u;
     upath := pathJoin (upath u) fragmentPath; query := query u;
     fragment := fragment u |}.

Definition isLetter (c : ascii) : bool :=
  let n := N_of_ascii c in
  ((65 <=? n) && (n <=? 90)) || ((97 <=? n) && (n <=? 122)).

Definition toLowerCase (c : ascii) : ascii :=
  let n := N_of_ascii c in
  if (65 <=? n) && (n <=? 90) then ascii_of_N (n + 32) else c.

(** [uri.fsPath] where paths are written with [/]: a [file] location with
    an authority is a UNC path; a path that starts with a drive letter
    loses its leading separator and has the letter in lower case. *)
Definition fsPathOf (u : uri) : string :=
  if negb (String.eqb (authority u) "")
     && (1 <? String.length (upath u))%nat
     && String.eqb (scheme u) "file"
  then "//" +:+ authority u +:+ upath u
  else
    match upath u with
    | String "/" (String c (String ":" r)) =>
        if isLetter c then String (toLowerCase c) (String ":" r) else upath u
    | _ => upath u
    end.

#[export] Instance platform : Platform :=
  Build_Platform uri parse joinPath upath fsPathOf basename.

End Posix.

(** ** Concrete inputs *)

Module Examples.

Import Posix.

(** One workspace folder, [/w]. *)
Definition folderW : WorkspaceFolder := {| wf_uri := file "/w"; wf_name := "w" |}.

(** The directory [/w/a] of the scenario: two files and a directory. *)
Definition childrenA : list (string * FileType) :=
  [("x.env", FileType.File); ("y.txt", FileType.File);
   ("sub", FileType.Directory)].

(** A host with the folder [/w], the directories [/w/a] and [/w/a/sub],
    no readable file, and the variables [HOME] and [D] in the process
    environment. *)
Definition host : Host :=
  {| workspaceFolders := Some [folderW];
     readFile := fun _ => None;
     readDirectory := fun u =>
       if String.eqb (upath u) "/w/a" then Some childrenA
       else if String.eqb (upath u) "/w/a/sub" then Some []
       else None;
     processEnv := fun name =>
       if String.eqb name "HOME" then Some "/h"
       else if String.eqb name "D" then Some "cfg"
       else None;
     regExp := fun _ => None;
     showOpenDialog := fun _ _ => None |}.

(** [{ options: { path: "a", canSelectMany: true }, output: { default: "X" } }] *)
Definition manyArgs : Param :=
  ParamObject
    (Some {| p_path := Some "a"; p_native := None;
             p_canSelectFiles := None; p_canSelectFolders := None;
             p_canChangeFolder := None; p_canSelectMany := Some true;
             p_filterRegExp := None; p_filterExt := None;
             p_defaultInputPath := None; p_defaultWorkspace := None;
             p_defaultEnvFile := None; p_title := None |})
    (Some {| p_join := None; p_fsPath := None; p_defaultPath := None;
             p_default := Some "X" |}).

(** The user accepts the list with nothing ticked. *)
Definition acceptNothing : list (list Item -> PickResult) := [fun _ => Many []].

(** The user dismisses the list. *)
Definition dismiss : list (list Item -> PickResult) := [fun _ => Cancelled].

(** [{ options: { canSelectFolders: false, canChangeFolder: false, path: "a" } }] *)
Definition scenarioArgs : Param :=
  ParamObject
    (Some {| p_path := Some "a"; p_native := None;
             p_canSelectFiles := None;
             p_canSelectFolders := Some false;
             p_canChangeFolder := Some false; p_canSelectMany := None;
             p_filterRegExp := None; p_filterExt := None;
             p_defaultInputPath := None; p_defaultWorkspace := None;
             p_defaultEnvFile := None; p_title := None |})
    None.

(** [{ options: { canSelectFolders: true, canChangeFolder: true, path: "a" } }] *)
Definition browseArgs : Param :=
  ParamObject
    (Some {| p_path := Some "a"; p_native := None;
             p_canSelectFiles := None; p_canSelectFolders := Some true;
             p_canChangeFolder := Some true; p_canSelectMany := None;
             p_filterRegExp := None; p_filterExt := None;
             p_defaultInputPath := None; p_defaultWorkspace := None;
             p_defaultEnvFile := None; p_title := None |})
    None.

(** The entry of the list with the given name, as the user picks it. *)
Definition pickNamed (name : string) (shown : list Item) : PickResult :=
  match List.find (fun i => String.eqb (item_name i) name) shown with
  | Some i => One i
  | None => Cancelled
  end.

(** A host with two workspace folders, [/w/a] and [/w/b], and nothing
    else. *)
Definition twoFolders : Host :=
  {| workspaceFolders :=
       Some [ {| wf_uri := file "/w/a"; wf_name := "a" |};
              {| wf_uri := file "/w/b"; wf_name := "b" |} ];
     readFile := fun _ => None;
     readDirectory := fun _ => None;
     processEnv := fun _ => None;
     regExp := fun _ => None;
     showOpenDialog := fun _ _ => None |}.

(** The double-quoted text ['x'], quotes included. *)
Definition quotedTwice : string := String "034" ("'x'" +:+ String "034" "").

End Examples.

(** ** Vocabulary of the statements *)

(** [s.includes(c)] for a character. *)
Fixpoint includesChar (c : ascii) (s : string) : bool :=
  match s with
  | "" => false
  | String x s' => Ascii.eqb x c || includesChar c s'
  end.

(** The lines [parseEnvContent] skips: blank lines and comments. *)
Definition isIgnoredLine (line : string) : bool :=
  String.eqb (Js.trim line) "" || Js.startsWith (Js.trim line) "#".

(** The key a line binds, if any. *)
Definition lineKey (line : string) : option string :=
  fst <$> lineEntry line.

(** The value of a [KEY=VALUE] line as the code cleans it: trimmed, then
    without a surrounding pair of double quotes, then without a surrounding
    pair of single quotes. *)
Definition cleanValue (raw : string) : string :=
  Js.stripQuotes "'" (Js.stripQuotes "034" (Js.trim raw)).

(** The value as the specification words it: trimmed, then without ONE
    layer of matching surrounding quotes, double or single. *)
Definition unquoteOnce (raw : string) : string :=
  let t := Js.trim raw in
  if negb (String.eqb (Js.stripQuotes "034" t) t) then Js.stripQuotes "034" t
  else Js.stripQuotes "'" t.

(** [t] starts with a placeholder: [${env:], white space, a name made of
    one or more word characters, a closing brace. *)
Definition PlaceholderAt (t : string) : Prop :=
  exists ws name rest,
    t = "${env:" +:+ ws +:+ name +:+ "}" +:+ rest
    /\ Js.allChars Js.isSpace ws = true
    /\ name <> ""
    /\ Js.allChars Js.isWord name = true.

(** The placeholder pattern occurs somewhere in [p]. *)
Definition PlaceholderOccurs (p : string) : Prop :=
  exists pre t, p = pre +:+ t /\ PlaceholderAt t.

(** The same, as a test. *)
Fixpoint hasPlaceholder (p : string) : bool :=
  match p with
  | "" => false
  | String _ p' =>
      match matchPlaceholder p with
      | Some _ => true
      | None => hasPlaceholder p'
      end
  end.

(** A segment [normalize] keeps: not empty, not [.], without separator. *)
Definition properSegment (seg : string) : bool :=
  Js.truthy seg && negb (String.eqb seg ".") && negb (includesChar "/" seg).

(** The stacks [normalize] builds: proper segments, a [..] only at the
    bottom or on another [..], and only in a relative path. *)
Fixpoint wellStacked (allowAboveRoot : bool) (st : list string) : bool :=
  match st with
  | [] => true
  | top :: st' =>
      properSegment top
      && wellStacked allowAboveRoot st'
      && (if String.eqb top ".."
          then allowAboveRoot
               && match st' with
                  | [] => true
                  | below :: _ => String.eqb below ".."
                  end
          else true)
  end.
(** ** More concrete inputs *)

Module Inputs.

(** The host of [Examples.host] with a readable env file at [/w/.env],
    which binds [D] and [E], and a native dialog that answers with the file
    [picked] of the directory it is opened on. *)
Definition envHost : Host (H := Posix.platform) :=
  {| workspaceFolders := Some [Examples.folderW];
     readFile := fun u =>
       if String.eqb (Posix.upath u) "/w/.env"
       then Some ("D=file" +:+ String "010" "E = 'q' ")
       else None;
     readDirectory := readDirectory Examples.host;
     processEnv := processEnv Examples.host;
     regExp := fun _ => None;
     showOpenDialog := fun _ dir =>
       match dir with
       | Some d => Some [Posix.joinPath d "picked"]
       | None => None
       end |}.

(** A host with no workspace folder. *)
Definition bareHost : Host (H := Posix.platform) :=
  {| workspaceFolders := None;
     readFile := fun _ => None;
     readDirectory := fun _ => None;
     processEnv := fun _ => None;
     regExp := fun _ => None;
     showOpenDialog := fun _ _ => None |}.

(** Folders can be selected, and files are filtered on the extension
    [.env]. *)
Definition extOptions : Options :=
  {| path := Some "a"; native := false; canSelectFiles := true;
     canSelectFolders := true; canChangeFolder := false;
     canSelectMany := false; filterRegExp := None; filterExt := Some ".env";
     defaultInputPath := None; defaultWorkspace := None;
     defaultEnvFile := None; title := None |}.

(** [{ options: { path: "nowhere" }, output: { default: "X" } }] *)
Definition nowhereArgs : Param :=
  ParamObject
    (Some {| p_path := Some "nowhere"; p_native := None;
             p_canSelectFiles := None; p_canSelectFolders := None;
             p_canChangeFolder := None; p_canSelectMany := None;
             p_filterRegExp := None; p_filterExt := None;
             p_defaultInputPath := None; p_defaultWorkspace := None;
             p_defaultEnvFile := None; p_title := None |})
    (Some {| p_join := None; p_fsPath := None; p_defaultPath := None;
             p_default := Some "X" |}).

(** [{ options: { path: "a" }, output: { fsPath: false, defaultPath: "d/e" } }] *)
Definition defaultPathArgs : Param :=
  ParamObject
    (Some {| p_path := Some "a"; p_native := None;
             p_canSelectFiles := None; p_canSelectFolders := None;
             p_canChangeFolder := None; p_canSelectMany := None;
             p_filterRegExp := None; p_filterExt := None;
             p_defaultInputPath := None; p_defaultWorkspace := None;
             p_defaultEnvFile := None; p_title := None |})
    (Some {| p_join := None; p_fsPath := Some false;
             p_defaultPath := Some "d/e"; p_default := None |}).

End Inputs.

(** ** More vocabulary *)

(** How a location is written in the output: [uri.fsPath] or [uri.path]. *)
Definition rendered `{Platform} (out : Output) (uri : Uri) : string :=
  if fsPath out then Uri_fsPath uri else Uri_path uri.

(** The entries the list is built from: the pseudo-entries the options
    allow, then the listing. *)
Definition candidates (opts : Options) (children : list (string * FileType))
  : list (string * FileType) :=
  (if canChangeFolder opts then [("..", FileType.Directory)] else [])
  ++ (if canSelectFolders opts then [(".", FileType.Directory)] else [])
  ++ children.

(** The two line terminators of an env file. *)
Definition LF : string := String "010" "".
Definition CRLF : string := String "013" (String "010" "").

(** A line of an env file that can be joined to the next with a line feed:
    it holds no line feed and does not end with a carriage return. *)
Definition plainLine (l : string) : bool :=
  negb (includesChar "010" l) && negb (Js.endsWith l (String "013" "")).

(** * Properties *)

(** ** Strings *)

#[local] Arguments Ascii.eqb : simpl never.

Section StringFacts.

Lemma string_app_cons (c : ascii) (s t : string) :
  String c s +:+ t = String c (s +:+ t).
Proof. reflexivity. Qed.

Lemma string_app_nil_l (t : string) : "" +:+ t = t.
Proof. reflexivity. Qed.

Lemma string_app_nil_r (s : string) : s +:+ "" = s.
Proof.
  induction s as [|c s IH]; [done|]. by rewrite string_app_cons, IH.
Qed.

Lemma string_app_assoc (a b c : string) : (a +:+ b) +:+ c = a +:+ b +:+ c.
Proof.
  induction a as [|x a IH]; [done|]. by rewrite !string_app_cons, IH.
Qed.

Lemma string_app_length (a b : string) :
  String.length (a +:+ b) = (String.length a + String.length b)%nat.
Proof.
  induction a as [|x a IH]; [done|]. rewrite string_app_cons; simpl.
  by rewrite IH.
Qed.

Lemma startsWith_slash (s : string) :
  Js.startsWith s "/" = true -> exists s', s = String "/" s'.
Proof.
  unfold Js.startsWith.
  destruct s as [|c s]; simpl; [done|].
  destruct (Ascii.eqb_spec "/" c) as [<-|]; [intros _; eauto|done].
Qed.

Lemma splitGo_join (sep : ascii) (s : string) :
  Js.join (String sep "") (Js.split sep s) = s.
Proof.
  unfold Js.split.
  induction s as [|c s IH]; simpl; [done|].
  destruct (Js.splitGo sep s) as [p ps].
  destruct (Ascii.eqb_spec c sep) as [->|Hne]; simpl.
  - by rewrite <- IH.
  - destruct ps as [|q ps]; simpl in *; rewrite <- IH; [done|].
    by rewrite string_app_cons.
Qed.

Lemma splitGo_no_sep (sep : ascii) (s : string) :
  includesChar sep s = false -> Js.splitGo sep s = (s, []).
Proof.
  induction s as [|c s IH]; simpl; [done|].
  intros [Hc Hs]%orb_false_iff. rewrite (IH Hs), Hc. done.
Qed.

Lemma splitGo_first_sep (sep : ascii) (k v : string) :
  includesChar sep k = false ->
  Js.splitGo sep (k +:+ String sep v) = (k, Js.split sep v).
Proof.
  unfold Js.split.
  induction k as [|c k IH]; simpl.
  - intros _. destruct (Js.splitGo sep v). by rewrite Ascii.eqb_refl.
  - intros [Hc Hk]%orb_false_iff. rewrite (IH Hk), Hc. by destruct (Js.splitGo sep v).
Qed.

End StringFacts.

(** ** Env-file parser *)

Section ParserFacts.

Local Abbreviation addLine :=
  (fun (envMap : gmap string string) (line : string) =>
     match lineEntry line with
     | Some (key, value) => <[key := value]> envMap
     | None => envMap
     end).

Lemma fold_keeps_bound (post : list string) (k : string) (m : gmap string string) :
  is_Some (m !! k) -> is_Some (fold_left addLine post m !! k).
Proof.
  revert m. induction post as [|l post IH]; intros m Hm; simpl; [done|].
  apply IH. destruct (lineEntry l) as [[k' v']|]; [|done].
  destruct (decide (k' = k)) as [->|Hne].
  - rewrite lookup_insert_eq. eauto.
  - by rewrite lookup_insert_ne.
Qed.

Lemma fold_keeps_value (post : list string) (k v : string) (m : gmap string string) :
  (forall l', l' ∈ post -> lineKey l' <> Some k) ->
  m !! k = Some v -> fold_left addLine post m !! k = Some v.
Proof.
  revert m. induction post as [|l post IH]; intros m Hpost Hm; simpl; [done|].
  apply IH.
  - intros l' Hl'. apply Hpost. by right.
  - assert (lineKey l <> Some k) as Hl by (apply Hpost; left).
    unfold lineKey in Hl.
    destruct (lineEntry l) as [[k' v']|]; [|done].
    rewrite lookup_insert_ne; [done|]. intros ->. by apply Hl.
Qed.

Lemma parse_binds (content : string) (pre post : list string) (l k v : string) :
  Js.splitLines content = pre ++ l :: post ->
  lineEntry l = Some (k, v) ->
  is_Some (parseEnvContent content !! k).
Proof.
  intros Hlines Hl. unfold parseEnvContent.
  rewrite Hlines, fold_left_app. simpl. rewrite Hl.
  apply fold_keeps_bound. rewrite lookup_insert_eq. eauto.
Qed.

Lemma parse_last_wins (content : string) (pre post : list string) (l k v : string) :
  Js.splitLines content = pre ++ l :: post ->
  lineEntry l = Some (k, v) ->
  (forall l', l' ∈ post -> lineKey l' <> Some k) ->
  parseEnvContent content !! k = Some v.
Proof.
  intros Hlines Hl Hpost. unfold parseEnvContent.
  rewrite Hlines, fold_left_app. simpl. rewrite Hl.
  apply fold_keeps_value; [done|]. by rewrite lookup_insert_eq.
Qed.

Lemma truthy_not_empty (s : string) : s <> "" -> Js.truthy s = true.
Proof. by destruct s. Qed.

Lemma lineEntry_key_value (k v : string) :
  isIgnoredLine (k +:+ "=" +:+ v) = false ->
  includesChar "=" k = false ->
  k <> "" ->
  lineEntry (k +:+ "=" +:+ v) = Some (Js.trim k, cleanValue v).
Proof.
  intros Hign Hk Hne. unfold lineEntry.
  fold (isIgnoredLine (k +:+ "=" +:+ v)). rewrite Hign.
  change ("=" +:+ v) with (String "=" v).
  rewrite (splitGo_first_sep _ _ _ Hk), (truthy_not_empty _ Hne).
  by rewrite (splitGo_join "=" v).
Qed.

Lemma lineEntry_no_equals (line : string) :
  isIgnoredLine line = false ->
  includesChar "=" line = false ->
  lineEntry line = Some (Js.trim line, "").
Proof.
  intros Hign Hno. unfold lineEntry.
  fold (isIgnoredLine line). rewrite Hign, (splitGo_no_sep _ _ Hno).
  destruct line as [|c line]; [done|]. done.
Qed.

Lemma splitGo_key_no_sep (sep : ascii) (s key : string) (parts : list string) :
  Js.splitGo sep s = (key, parts) -> includesChar sep key = false.
Proof.
  revert key parts. induction s as [|c s IH]; simpl; intros key parts.
  - by intros [= <- <-].
  - destruct (Js.splitGo sep s) as [p ps].
    destruct (Ascii.eqb_spec c sep) as [Heq|Hne]; intros [= <- <-]; [done|].
    simpl. rewrite (IH p ps eq_refl). by destruct (Ascii.eqb_spec c sep).
Qed.

(** The lines that bind a key [k]: the lines that are not ignored and are
    [key] or [key=value] for a non-empty [key] without [=] that trims to
    [k]. *)
Lemma lineKey_spec (line k : string) :
  lineKey line = Some k
  <-> isIgnoredLine line = false
      /\ exists key, includesChar "=" key = false /\ key <> "" /\ Js.trim key = k
           /\ (line = key \/ exists value, line = key +:+ "=" +:+ value).
Proof.
  split.
  - unfold lineKey, lineEntry. fold (isIgnoredLine line).
    destruct (isIgnoredLine line); [done|].
    pose proof (splitGo_join "=" line) as Hjoin. unfold Js.split in Hjoin.
    destruct (Js.splitGo "=" line) as [key parts] eqn:Hsplit.
    pose proof (splitGo_key_no_sep _ _ _ _ Hsplit) as Hkey.
    destruct key as [|c key]; [done|]. simpl. intros [= <-].
    split; [done|]. exists (String c key). repeat split; [done|done|].
    destruct parts as [|q parts]; [by left|right].
    exists (Js.join "=" (q :: parts)). by rewrite <- Hjoin.
  - intros (Hign & key & Hkey & Hne & <- & [->| [value ->]]); unfold lineKey.
    + by rewrite (lineEntry_no_equals _ Hign Hkey).
    + by rewrite (lineEntry_key_value _ _ Hign Hkey Hne).
Qed.

End ParserFacts.

(** ** Placeholders and their replacement *)

Section PlaceholderFacts.

Lemma dropPrefix_app (p s t : string) :
  Js.dropPrefix p s = Some t -> s = p +:+ t.
Proof.
  revert s. induction p as [|a p IH]; intros s; simpl.
  - by intros [= ->].
  - destruct s as [|b s]; [done|].
    destruct (Ascii.eqb_spec a b) as [->|]; [|done].
    intros Hd. by rewrite (IH _ Hd).
Qed.

Lemma dropPrefix_complete (p t : string) : Js.dropPrefix p (p +:+ t) = Some t.
Proof.
  induction p as [|a p IH]; [done|].
  rewrite ?string_app_cons; simpl. by rewrite Ascii.eqb_refl.
Qed.

Lemma trimStart_split (s : string) :
  exists ws, s = ws +:+ Js.trimStart s /\ Js.allChars Js.isSpace ws = true.
Proof.
  induction s as [|c s (ws & Hs & Hws)]; simpl.
  - by exists "".
  - destruct (Js.isSpace c) eqn:Hc.
    + exists (String c ws). rewrite ?string_app_cons, <- ?Hs; simpl.
      by rewrite Hc, Hws.
    + by exists "".
Qed.

Lemma spanWord_split (s w r : string) :
  Js.spanWord s = (w, r) -> s = w +:+ r /\ Js.allChars Js.isWord w = true.
Proof.
  revert w r. induction s as [|c s IH]; intros w r; simpl.
  - by intros [= <- <-].
  - destruct (Js.isWord c) eqn:Hc.
    + destruct (Js.spanWord s) as [w' r'] eqn:Hs. intros [= <- <-].
      destruct (IH _ _ eq_refl) as [-> Hw]. simpl. by rewrite Hc, Hw.
    + by intros [= <- <-].
Qed.

Lemma word_not_space (c : ascii) : Js.isWord c = true -> Js.isSpace c = false.
Proof. destruct c as [[] [] [] [] [] [] [] []]; vm_compute; congruence. Qed.

Lemma trimStart_spaces (ws s : string) :
  Js.allChars Js.isSpace ws = true -> Js.trimStart (ws +:+ s) = Js.trimStart s.
Proof.
  induction ws as [|c ws IH]; simpl; [done|].
  intros [Hc Hws]%andb_true_iff. rewrite ?string_app_cons; simpl.
  by rewrite Hc, IH.
Qed.

Lemma spanWord_word (w r : string) :
  Js.allChars Js.isWord w = true ->
  Js.spanWord (w +:+ String "}" r) = (w, String "}" r).
Proof.
  induction w as [|c w IH]; simpl; [done|].
  intros [Hc Hw]%andb_true_iff. rewrite ?string_app_cons; simpl.
  by rewrite Hc, (IH Hw).
Qed.

Lemma matchPlaceholder_sound (s name rest : string) :
  matchPlaceholder s = Some (name, rest) ->
  exists ws,
    s = "${env:" +:+ ws +:+ name +:+ "}" +:+ rest
    /\ Js.allChars Js.isSpace ws = true
    /\ name <> ""
    /\ Js.allChars Js.isWord name = true.
Proof.
  unfold matchPlaceholder.
  destruct (Js.dropPrefix "${env:" s) as [t|] eqn:Hd; [|done].
  destruct (Js.spanWord (Js.trimStart t)) as [w r] eqn:Hw.
  destruct w as [|c w]; [done|].
  destruct r as [|b r]; [done|].
  destruct (Ascii.eqb_spec b "}") as [->|Hb].
  - intros [= <- <-].
    destruct (trimStart_split t) as (ws & Ht & Hws).
    destruct (spanWord_split _ _ _ Hw) as [Hs Hword].
    exists ws. split; [|done].
    rewrite (dropPrefix_app _ _ _ Hd). f_equal.
    by rewrite Ht at 1; rewrite Hs.
  - destruct b as [[] [] [] [] [] [] [] []]; done.
Qed.

Lemma matchPlaceholder_complete (t : string) :
  PlaceholderAt t -> exists name rest, matchPlaceholder t = Some (name, rest).
Proof.
  intros (ws & name & rest & -> & Hws & Hne & Hname).
  exists name, rest. unfold matchPlaceholder.
  rewrite dropPrefix_complete, (trimStart_spaces _ _ Hws).
  destruct name as [|c name]; [done|].
  assert (Js.trimStart (String c name +:+ "}" +:+ rest)
          = String c name +:+ "}" +:+ rest) as ->.
  { rewrite ?string_app_cons; simpl. simpl in Hname.
    apply andb_true_iff in Hname as [Hc _].
    by rewrite (word_not_space _ Hc). }
  change ("}" +:+ rest) with (String "}" rest).
  by rewrite (spanWord_word _ _ Hname).
Qed.

Lemma matchPlaceholder_shorter (s name rest : string) :
  matchPlaceholder s = Some (name, rest) ->
  (String.length rest < String.length s)%nat.
Proof.
  intros (ws & -> & _)%matchPlaceholder_sound.
  rewrite !string_app_length. simpl. lia.
Qed.

Lemma hasPlaceholder_spec (p : string) :
  hasPlaceholder p = true <-> PlaceholderOccurs p.
Proof.
  split.
  - induction p as [|c p IH]; simpl; [done|].
    destruct (matchPlaceholder (String c p)) as [[name rest]|] eqn:Hm.
    + intros _. exists "", (String c p). split; [done|].
      destruct (matchPlaceholder_sound _ _ _ Hm) as (ws & ? & ? & ? & ?).
      by exists ws, name, rest.
    + intros (pre & t & -> & Ht)%IH.
      exists (String c pre), t. by rewrite string_app_cons.
  - intros (pre & t & -> & Ht).
    destruct (matchPlaceholder_complete _ Ht) as (name & rest & Hm).
    induction pre as [|c pre IH].
    + rewrite string_app_nil_l. destruct t as [|c t]; [done|].
      simpl. by rewrite Hm.
    + rewrite ?string_app_cons; simpl.
      by destruct (matchPlaceholder (String c (pre +:+ t))).
Qed.

Lemma hasPlaceholder_false (p : string) :
  ~ PlaceholderOccurs p <-> hasPlaceholder p = false.
Proof.
  rewrite <- hasPlaceholder_spec. by destruct (hasPlaceholder p).
Qed.

Lemma replaceGo_fuel (f : string -> string) (n m : nat) (s : string) :
  (String.length s <= n)%nat -> (String.length s <= m)%nat ->
  replaceGo n f s = replaceGo m f s.
Proof.
  revert m s. induction n as [|n IH]; intros m s Hn Hm.
  - destruct s; [|simpl in Hn; lia]. by destruct m.
  - destruct m as [|m].
    + destruct s; [done|simpl in Hm; lia].
    + simpl. destruct s as [|c s]; [done|].
      destruct (matchPlaceholder (String c s)) as [[name rest]|] eqn:Hmatch.
      * apply matchPlaceholder_shorter in Hmatch.
        f_equal. apply IH; simpl in *; lia.
      * f_equal. apply IH; simpl in *; lia.
Qed.

(** The replacement without fuel: its two equations. *)
Lemma replaceEnv_nil (f : string -> string) : replaceEnv f "" = "".
Proof. done. Qed.

Lemma replaceEnv_cons (f : string -> string) (c : ascii) (s : string) :
  replaceEnv f (String c s) =
  match matchPlaceholder (String c s) with
  | Some (name, rest) => f name +:+ replaceEnv f rest
  | None => String c (replaceEnv f s)
  end.
Proof.
  unfold replaceEnv. simpl String.length. cbn [replaceGo].
  destruct (matchPlaceholder (String c s)) as [[name rest]|] eqn:Hmatch; [|done].
  apply matchPlaceholder_shorter in Hmatch.
  f_equal. apply replaceGo_fuel; simpl in *; lia.
Qed.

Lemma replaceEnv_ext (f g : string -> string) (s : string) :
  (forall name, f name = g name) -> replaceEnv f s = replaceEnv g s.
Proof.
  intros Hfg. unfold replaceEnv. generalize (String.length s) as n.
  intros n. revert s. induction n as [|n IH]; intros s; simpl; [done|].
  destruct s as [|c s]; [done|].
  destruct (matchPlaceholder (String c s)) as [[name rest]|].
  - by rewrite Hfg, IH.
  - by rewrite IH.
Qed.

Lemma replaceEnv_no_placeholder (f : string -> string) (s : string) :
  hasPlaceholder s = false -> replaceEnv f s = s.
Proof.
  induction s as [|c s IH]; [done|].
  rewrite replaceEnv_cons. simpl.
  destruct (matchPlaceholder (String c s)) as [[name rest]|]; [done|].
  intros Hs. by rewrite (IH Hs).
Qed.

Lemma replaceEnv_slash (f : string -> string) (s : string) :
  replaceEnv f (String "/" s) = String "/" (replaceEnv f s).
Proof. by rewrite replaceEnv_cons. Qed.

End PlaceholderFacts.

(** ** Substitution and root resolution *)

Section ResolverFacts.

Context `{Platform}.
Variable h : Host.

Lemma startsWith_slash_cons (s : string) : Js.startsWith (String "/" s) "/" = true.
Proof. reflexivity. Qed.

Lemma parseEnvContent_empty : parseEnvContent "" = ∅.
Proof. reflexivity. Qed.

Lemma envValue_empty (name : string) :
  envValue h ∅ name = default "" (processEnv h name).
Proof. unfold envValue. by rewrite lookup_empty. Qed.

Lemma resolveEnvVariables_replace (p : string) (envFile dw : option string) :
  exists envMap, resolveEnvVariables h (Some p) envFile dw = replaceEnv (envValue h envMap) p.
Proof.
  unfold resolveEnvVariables. destruct p as [|c p]; [by exists ∅|]. eauto.
Qed.

Lemma resolveEnvVariables_identity (p : string) (envFile dw : option string) :
  hasPlaceholder p = false -> resolveEnvVariables h (Some p) envFile dw = p.
Proof.
  intros Hp. destruct (resolveEnvVariables_replace p envFile dw) as [m ->].
  by apply replaceEnv_no_placeholder.
Qed.

Lemma resolveEnvVariables_slash (s : string) (envFile dw : option string) :
  exists s', resolveEnvVariables h (Some (String "/" s)) envFile dw = String "/" s'.
Proof.
  destruct (resolveEnvVariables_replace (String "/" s) envFile dw) as [m ->].
  rewrite replaceEnv_slash. eauto.
Qed.

Lemma resolvePath_absolute (dw dip envFile : option string) (p : string) :
  Js.startsWith p "/" = true ->
  resolvePath h dw dip envFile (Some p)
  = match Uri_parse (resolveEnvVariables h (Some p) envFile dw) with
    | Some uri => Ret (Some uri)
    | None => Threw
    end.
Proof.
  intros [s ->]%startsWith_slash. unfold resolvePath.
  destruct (resolveEnvVariables_slash s envFile dw) as [s' ->].
  rewrite startsWith_slash_cons. unfold parseUri.
  by destruct (Uri_parse (String "/" s')).
Qed.

(** [resolveEnvPath] is [resolvePath] without the substitution and without
    the default input path: on a path that needs neither, the two agree. *)
Lemma resolveEnvPath_resolvePath (p : string) (dw dip envFile : option string) :
  p <> "" -> hasPlaceholder p = false ->
  resolveEnvPath h p dw = resolvePath h dw dip envFile (Some p).
Proof.
  intros Hne Hp. unfold resolvePath, resolveEnvPath.
  rewrite (resolveEnvVariables_identity _ _ _ Hp).
  destruct (Js.startsWith p "/"); [done|].
  assert (String.eqb p "" = false) as Hempty by by apply String.eqb_neq.
  destruct dip as [[|c d]|]; rewrite ?Hempty; done.
Qed.

(** Where [resolveEnvPath] answers before it looks at the workspace
    name, the name does not matter. *)
Lemma resolveEnvPath_name_irrelevant (p : string) (w1 w2 : option string) :
  Js.startsWith p "/" = true
  \/ (exists f, workspaceFolders h = Some [f])
  \/ (exists uri,
        Uri_parse p = Some uri
        /\ is_Some (findFolder h (fun f =>
              Js.startsWith (Uri_path uri) (basename (Uri_path (wf_uri f)) +:+ "/"))))
  \/ Uri_parse p = None ->
  resolveEnvPath h p w1 = resolveEnvPath h p w2.
Proof.
  unfold resolveEnvPath, parseUri.
  intros [-> | [[f Hf] | [(uri & Huri & f & Hf) | Hnone]]]; [done| | |].
  - rewrite Hf. by destruct (Js.startsWith p "/").
  - rewrite Huri. simpl. rewrite Hf. destruct (Js.startsWith p "/"); [done|].
    by destruct (workspaceFolders h) as [[|g [|g' fs]]|].
  - rewrite Hnone. destruct (Js.startsWith p "/"); [done|].
    by destruct (workspaceFolders h) as [[|g [|g' fs]]|].
Qed.

End ResolverFacts.

(** ** The env file and the substitution: the properties *)

(** C3 (as the code has it). A line that is neither blank nor a comment and
    holds no [=] is not ignored: [split] gives the whole line as the key and
    no value part, so the trimmed line becomes a key of the map. It is bound
    to the empty string, unless a later line binds the same key again. *)
Theorem line_without_equals_binds_key
  (content : string) (pre post : list string) (line : string) :
  Js.splitLines content = pre ++ line :: post ->
  includesChar "=" line = false ->
  isIgnoredLine line = false ->
  is_Some (parseEnvContent content !! Js.trim line)
  /\ ((forall l', l' ∈ post -> lineKey l' <> Some (Js.trim line)) ->
      parseEnvContent content !! Js.trim line = Some "").
Proof.
  intros Hlines Hno Hign.
  pose proof (lineEntry_no_equals _ Hign Hno) as Hentry. split.
  - by eapply parse_binds.
  - intros Hpost. by eapply parse_last_wins.
Qed.

Lemma line_without_equals_binds_key_witness :
  Js.splitLines ("FOO" +:+ String "010" "BAR=1") = [] ++ "FOO" :: ["BAR=1"]
  /\ includesChar "=" "FOO" = false
  /\ isIgnoredLine "FOO" = false
  /\ is_Some (parseEnvContent ("FOO" +:+ String "010" "BAR=1") !! "FOO").
Proof.
  repeat split; try reflexivity.
  apply (line_without_equals_binds_key
           ("FOO" +:+ String "010" "BAR=1") [] ["BAR=1"] "FOO"); reflexivity.
Defined.

(** The claim of C3 fails on the file whose only line is [FOO]: the line
    has no [=], and the key [FOO] is in the map. *)
Lemma line_without_equals_counterexample :
  Js.splitLines "FOO" = ["FOO"]
  /\ includesChar "=" "FOO" = false
  /\ parseEnvContent "FOO" !! "FOO" = Some ""
  /\ parseEnvContent "FOO" !! "FOO" <> None.
Proof. repeat split; try reflexivity. vm_compute. discriminate. Qed.

(** C5 (as the code has it). A line binds a key when it is not ignored and
    its part before the first [=] is not empty: a line [KEY=VALUE], and
    also a line without [=], which binds its trimmed text to the empty
    string. Take a line [KEY=VALUE] after which no line binds the same
    (trimmed) key. Whatever the lines before it, looking the key up returns
    the value of that line, cleaned: trimmed, then without a surrounding
    pair of double quotes, then without a surrounding pair of single
    quotes. So a key bound by one line gives its value, and a key defined
    on two [KEY=VALUE] lines gives the later one. *)
Theorem lookup_returns_last_cleaned_value
  (content : string) (pre post : list string) (key value : string) :
  Js.splitLines content = pre ++ (key +:+ "=" +:+ value) :: post ->
  includesChar "=" key = false ->
  key <> "" ->
  isIgnoredLine (key +:+ "=" +:+ value) = false ->
  (forall l', l' ∈ post -> lineKey l' <> Some (Js.trim key)) ->
  parseEnvContent content !! Js.trim key = Some (cleanValue value).
Proof.
  intros Hlines Hkey Hne Hign Hpost.
  eapply parse_last_wins; [done| |done].
  by apply lineEntry_key_value.
Qed.

Lemma lookup_returns_last_cleaned_value_witness :
  parseEnvContent
    ("A=1" +:+ String "010" ("A = 'x y' " +:+ String "010" "B=2")) !! "A"
  = Some "x y".
Proof.
  apply (lookup_returns_last_cleaned_value
           ("A=1" +:+ String "010" ("A = 'x y' " +:+ String "010" "B=2"))
           ["A=1"] ["B=2"] "A " " 'x y' ").
  - reflexivity.
  - reflexivity.
  - discriminate.
  - reflexivity.
  - intros l' Hl'. inversion Hl' as [|? ? ? Hin]; subst.
    + vm_compute. discriminate.
    + inversion Hin.
Defined.

(** The claim of C5 fails on the line [K=] followed by ['x'] in double
    quotes: the code strips the double quotes and then the single quotes,
    two layers, where the claim strips one. It fails too on the two lines
    [A=1] and [A]: the key is defined on one [KEY=VALUE] line, yet the line
    [A], which has no [=], binds it again, to the empty string. *)
Lemma lookup_one_layer_counterexample :
  Js.splitLines ("K=" +:+ Examples.quotedTwice) = ["K=" +:+ Examples.quotedTwice]
  /\ parseEnvContent ("K=" +:+ Examples.quotedTwice) !! "K" = Some "x"
  /\ unquoteOnce Examples.quotedTwice = "'x'"
  /\ parseEnvContent ("K=" +:+ Examples.quotedTwice) !! "K"
     <> Some (unquoteOnce Examples.quotedTwice)
  /\ Js.splitLines ("A=1" +:+ String "010" "A") = ["A=1"; "A"]
  /\ lineEntry "A=1" = Some ("A", "1")
  /\ lineEntry "A" = Some ("A", "")
  /\ parseEnvContent ("A=1" +:+ String "010" "A") !! "A" = Some ""
  /\ parseEnvContent ("A=1" +:+ String "010" "A") !! "A" <> Some "1".
Proof. repeat split; try reflexivity; vm_compute; discriminate. Qed.

(** C9. On a path in which the placeholder pattern does not occur,
    environment substitution is the identity, whatever the env file, the
    workspace name and the process environment. *)
Theorem substitution_identity `{Platform} (h : Host) (p : string)
  (envFile dw : option string) :
  ~ PlaceholderOccurs p ->
  resolveEnvVariables h (Some p) envFile dw = p.
Proof.
  intros Hp%hasPlaceholder_false. by apply resolveEnvVariables_identity.
Qed.

Lemma substitution_identity_witness :
  ~ PlaceholderOccurs "a/$b.env"
  /\ resolveEnvVariables Examples.host (Some "a/$b.env") (Some "missing.env") None
     = "a/$b.env".
Proof.
  assert (~ PlaceholderOccurs "a/$b.env") as Hp
    by (apply hasPlaceholder_false; reflexivity).
  split; [exact Hp|].
  exact (substitution_identity Examples.host "a/$b.env" (Some "missing.env") None Hp).
Defined.

(** C4 (as the code has it). When the env file cannot be read (locating it
    throws, its location is unresolved, or the read fails) the content is
    the empty string and
    nothing aborts; every placeholder of the path is then replaced by the
    value of its name in the process environment, and by the empty string
    when the process environment has no such name. *)
Theorem unreadable_env_file_falls_back `{Platform} (h : Host) (p envFile : string)
  (dw : option string) :
  envFile <> "" ->
  (forall uri, resolveEnvPath h envFile (Some envFile) = Ret (Some uri) ->
               readFile h uri = None) ->
  readWorkspaceFile h envFile (Some envFile) = ""
  /\ resolveEnvVariables h (Some p) (Some envFile) dw
     = replaceEnv (fun name => default "" (processEnv h name)) p
  /\ ((forall name, processEnv h name = None) ->
      resolveEnvVariables h (Some p) (Some envFile) dw = replaceEnv (fun _ => "") p).
Proof.
  intros Hne Hread.
  assert (readWorkspaceFile h envFile (Some envFile) = "") as Hcontent.
  { unfold readWorkspaceFile.
    destruct (resolveEnvPath h envFile (Some envFile)) as [[uri|]| |]; try done.
    by rewrite (Hread uri eq_refl). }
  assert (resolveEnvVariables h (Some p) (Some envFile) dw
          = replaceEnv (fun name => default "" (processEnv h name)) p) as Hsubst.
  { unfold resolveEnvVariables. destruct p as [|c p]; [done|].
    destruct envFile as [|e envFile]; [done|].
    rewrite Hcontent, parseEnvContent_empty.
    apply replaceEnv_ext, envValue_empty. }
  split; [done|]. split; [done|].
  intros Hnone. rewrite Hsubst. apply replaceEnv_ext.
  intros name. by rewrite Hnone.
Qed.

Lemma unreadable_env_file_falls_back_witness :
  resolveEnvVariables Examples.host (Some "${env:HOME}/${env:NONE}x") (Some "missing.env") None
  = "/h/x".
Proof.
  assert ("missing.env" <> "") as Hne by discriminate.
  assert (forall uri,
             resolveEnvPath Examples.host "missing.env" (Some "missing.env")
             = Ret (Some uri) ->
             readFile Examples.host uri = None) as Hread by reflexivity.
  destruct (unreadable_env_file_falls_back Examples.host
              "${env:HOME}/${env:NONE}x" "missing.env" None Hne Hread)
    as (_ & -> & _).
  reflexivity.
Defined.

(** The claim of C4 fails when the process environment knows the name: the
    env file [missing.env] cannot be read, and the placeholder of [HOME]
    gets the value of the process environment, not the empty string. *)
Lemma unreadable_env_file_counterexample :
  (forall uri,
      resolveEnvPath Examples.host "missing.env" (Some "missing.env") = Ret (Some uri) ->
      readFile Examples.host uri = None)
  /\ resolveEnvVariables Examples.host (Some "${env:HOME}/x") (Some "missing.env") None
     = "/h/x"
  /\ resolveEnvVariables Examples.host (Some "${env:HOME}/x") (Some "missing.env") None
     <> replaceEnv (fun _ => "") "${env:HOME}/x".
Proof. repeat split; try reflexivity. vm_compute. discriminate. Qed.

(** C8 (as the code has it). For a path that starts with a separator and
    for every workspace context, the root resolver returns the parsed
    substituted path, which still starts with a separator; it is not joined
    with a workspace root. When the placeholder pattern does not occur in
    the path, this is the path itself, unchanged. The result is what
    [Uri.parse] gives: a location, or its [UriError] where it rejects the
    string. *)
Theorem resolvePath_leading_separator `{Platform} (h : Host)
  (dw dip envFile : option string) (p : string) :
  Js.startsWith p "/" = true ->
  resolvePath h dw dip envFile (Some p)
  = match Uri_parse (resolveEnvVariables h (Some p) envFile dw) with
    | Some uri => Ret (Some uri)
    | None => Threw
    end
  /\ Js.startsWith (resolveEnvVariables h (Some p) envFile dw) "/" = true
  /\ (~ PlaceholderOccurs p ->
      resolvePath h dw dip envFile (Some p)
      = match Uri_parse p with
        | Some uri => Ret (Some uri)
        | None => Threw
        end).
Proof.
  intros Hp. split; [by apply resolvePath_absolute|]. split.
  - apply startsWith_slash in Hp as [s ->].
    by destruct (resolveEnvVariables_slash h s envFile dw) as [s' ->].
  - intros Hno%hasPlaceholder_false.
    rewrite (resolvePath_absolute _ _ _ _ _ Hp).
    by rewrite (resolveEnvVariables_identity _ _ _ _ Hno).
Qed.

Lemma resolvePath_leading_separator_witness :
  resolvePath Examples.host (Some "w") None None (Some "/etc/${env:D}/x")
  = Ret (Some (Posix.file "/etc/cfg/x")).
Proof.
  destruct (resolvePath_leading_separator Examples.host (Some "w") None None
              "/etc/${env:D}/x" eq_refl) as (-> & _ & _).
  reflexivity.
Defined.

(** The claim of C8 fails on the path [/${env:D}]: it starts with a
    separator, and the resolver returns the location of [/cfg], the path
    after substitution, not the path unchanged. *)
Lemma resolvePath_leading_separator_counterexample :
  Js.startsWith "/${env:D}" "/" = true
  /\ resolvePath Examples.host None None None (Some "/${env:D}")
     = Ret (Some (Posix.file "/cfg"))
  /\ Posix.parse "/${env:D}" = Some (Posix.file "/${env:D}")
  /\ resolvePath Examples.host None None None (Some "/${env:D}")
     <> Ret (Some (Posix.file "/${env:D}")).
Proof. repeat split; try reflexivity. vm_compute. discriminate. Qed.

(** C2 (as the code has it). For a configured env-file path in which the
    placeholder pattern does not occur, [resolveEnvPath] is the root
    resolver on that path, for every workspace context and every workspace
    name given to both. The location of the env file, as
    [resolveEnvVariables] asks for it, is therefore the one the root resolver
    yields in the leading-separator case, in the single-root case and in the
    multi-root case where a folder matches the leading segment (and also
    where [Uri.parse] rejects the path: both throw). *)
Theorem env_file_location `{Platform} (h : Host) (dw dip : option string)
  (envFile : string) :
  envFile <> "" ->
  ~ PlaceholderOccurs envFile ->
  (forall w, resolveEnvPath h envFile w
             = resolvePath h w dip (Some envFile) (Some envFile))
  /\ (Js.startsWith envFile "/" = true
      \/ (exists f, workspaceFolders h = Some [f])
      \/ (exists uri,
            Uri_parse envFile = Some uri
            /\ is_Some (findFolder h (fun f =>
                  Js.startsWith (Uri_path uri)
                    (basename (Uri_path (wf_uri f)) +:+ "/"))))
      \/ Uri_parse envFile = None ->
      resolveEnvPath h envFile (Some envFile)
      = resolvePath h dw dip (Some envFile) (Some envFile)).
Proof.
  intros Hne Hno%hasPlaceholder_false. split.
  - intros w. by apply resolveEnvPath_resolvePath.
  - intros Hcase.
    rewrite (resolveEnvPath_name_irrelevant h envFile (Some envFile) dw Hcase).
    by apply resolveEnvPath_resolvePath.
Qed.

Lemma env_file_location_witness :
  resolveEnvPath Examples.host "conf/.env" (Some "conf/.env")
  = resolvePath Examples.host (Some "w") None (Some "conf/.env") (Some "conf/.env").
Proof.
  assert ("conf/.env" <> "") as Hne by discriminate.
  assert (~ PlaceholderOccurs "conf/.env") as Hno
    by (apply hasPlaceholder_false; reflexivity).
  destruct (env_file_location Examples.host (Some "w") None "conf/.env" Hne Hno)
    as [_ Hloc].
  apply Hloc. right. left. by exists Examples.folderW.
Defined.

(** The claim of C2 fails on the env-file path [${env:D}/.env] under the
    single root [/w]: the env file is looked for at the path as written,
    where the root resolver substitutes [D] first. *)
Lemma env_file_location_counterexample :
  resolveEnvPath Examples.host "${env:D}/.env" (Some "${env:D}/.env")
  = Ret (Some (Posix.file "/w/${env:D}/.env"))
  /\ resolvePath Examples.host None None (Some "${env:D}/.env") (Some "${env:D}/.env")
     = Ret (Some (Posix.file "/w/cfg/.env"))
  /\ resolveEnvPath Examples.host "${env:D}/.env" (Some "${env:D}/.env")
     <> resolvePath Examples.host None None (Some "${env:D}/.env") (Some "${env:D}/.env").
Proof. repeat split; try reflexivity. vm_compute. discriminate. Qed.

(** ** Navigation and output *)

Section NavigationFacts.

Context `{Platform}.
Variable h : Host.

Lemma filterOutcome_all (A : Type) (p : A -> Outcome bool) (l : list A) :
  (forall x, x ∈ l -> p x = Ret true) -> filterOutcome p l = Ret l.
Proof.
  induction l as [|x l IH]; intros Hp; simpl; [done|].
  rewrite (Hp x) by left. simpl.
  rewrite IH; [done|]. intros y Hy. apply Hp. by right.
Qed.

Lemma filterOutcome_keeps (A : Type) (p : A -> Outcome bool) (l r : list A) (x : A) :
  filterOutcome p l = Ret r -> x ∈ l -> p x = Ret true -> x ∈ r.
Proof.
  revert r. induction l as [|y l IH]; intros r Hr Hx Hpx; [inversion Hx|].
  simpl in Hr.
  destruct (p y) as [b| |] eqn:Hy; try done. simpl in Hr.
  destruct (filterOutcome p l) as [r'| |]; try done. simpl in Hr.
  injection Hr as <-.
  apply elem_of_cons in Hx as [->|Hx].
  - rewrite Hpx in Hy. injection Hy as <-. left.
  - specialize (IH r' eq_refl Hx Hpx). destruct b; [by right|done].
Qed.

Lemma filter_Permutation_bool (A : Type) (p : A -> bool) (l l' : list A) :
  l ≡ₚ l' -> List.filter p l ≡ₚ List.filter p l'.
Proof.
  induction 1 as [|x l l' _ IH|x y l|l l' l'' _ IH1 _ IH2]; simpl.
  - done.
  - destruct (p x); [by constructor|done].
  - destruct (p x), (p y); try done. apply perm_swap.
  - by etrans.
Qed.

(** With folders neither selectable nor browsable, files selectable and
    no filter, the list shown is made of the entries that are not
    directories, in the order of the listing. *)
Lemma quickItems_files_only (opts : Options) (dir : Uri)
  (children : list (string * FileType)) :
  canSelectFolders opts = false ->
  canChangeFolder opts = false ->
  canSelectFiles opts = true ->
  filterRegExp opts = None ->
  filterExt opts = None ->
  quickItems h opts dir children
  = Ret (map (fun c => mkItem (mkEntry dir c))
           (List.filter (fun c : string * FileType =>
                           negb (c.2 =? FileType.Directory)) children)).
Proof.
  intros Hsel Hchg Hfiles Hre Hext. unfold quickItems.
  rewrite Hsel, Hchg, Hre, Hext. simpl.
  rewrite filterOutcome_all.
  - simpl. f_equal.
    assert (forall e, extFilter None e = true) as Hx
      by (intros e; unfold extFilter; apply orb_true_r).
    assert (forall e, fileFilter opts e = true) as Hf
      by (intros e; unfold fileFilter; rewrite Hfiles; apply orb_true_r).
    assert (forall c, folderFilter opts (mkEntry dir c)
                      = negb (c.2 =? FileType.Directory)) as Hd
      by (intros c; unfold folderFilter; rewrite Hsel, Hchg;
          by rewrite !orb_false_r).
    induction children as [|c children IH]; [done|].
    cbn [map List.filter]. rewrite Hx. cbn [List.filter]. rewrite Hd.
    destruct (negb (c.2 =? FileType.Directory)); [|apply IH].
    cbn [map List.filter]. rewrite Hf. cbn [map]. f_equal. apply IH.
  - intros e _. unfold regExpFilter. by destruct (e_type e =? FileType.Directory).
Qed.

Lemma enterBrowsing_dir (opts : Options) (d0 dir : Uri) (shown : list Item) :
  enterBrowsing h opts d0 = Ret (dir, shown) ->
  dir = Uri_joinPath d0 "."
  /\ exists children,
       readDirectory h dir = Some children
       /\ quickItems h opts dir children = Ret shown.
Proof.
  unfold enterBrowsing.
  destruct (readDirectory h (Uri_joinPath d0 ".")) as [children|] eqn:Hread;
    [|done].
  simpl.
  destruct (quickItems h opts (Uri_joinPath d0 ".") children) as [l| |] eqn:Hq;
    try done.
  simpl. intros [= <- <-]. split; [done|]. by exists children.
Qed.

(** One step of [pickWithQuick]: once the list is shown, the answer of the
    user decides. *)
Lemma pickWithQuick_step (opts : Options) (d0 dir : Uri) (shown : list Item)
  (answer : list Item -> PickResult) (script : list (list Item -> PickResult)) :
  enterBrowsing h opts d0 = Ret (dir, shown) ->
  pickWithQuick h (answer :: script) d0 opts
  = match afterPrompt opts dir (answer shown) with
    | Browsing next => pickWithQuick h script next opts
    | Terminal selections => Ret selections
    end.
Proof. intros Henter. simpl. by rewrite Henter. Qed.

(** The directory entry [.] passes every filter when folders can be
    selected. *)
Lemma dot_entry_shown (opts : Options) (dir : Uri)
  (children : list (string * FileType)) (shown : list Item) :
  canSelectFolders opts = true ->
  quickItems h opts dir children = Ret shown ->
  mkItem (mkEntry dir (".", FileType.Directory)) ∈ shown.
Proof.
  intros Hsel. unfold quickItems. rewrite Hsel.
  set (all := _ ++ _ ++ children).
  destruct (filterOutcome _ _) as [l| |] eqn:Hl; try done.
  simpl. intros [= <-].
  apply list_elem_of_In, in_map.
  assert (In (mkEntry dir (".", FileType.Directory)) l) as Hin.
  { apply list_elem_of_In.
    eapply filterOutcome_keeps; [exact Hl| |done].
    apply list_elem_of_In, in_map. subst all.
    apply in_or_app. right. by left. }
  repeat (apply filter_In; split); try done.
  unfold folderFilter. by rewrite Hsel.
Qed.

(** Selecting just the entry [.] ends the navigation with the current
    directory, where joining [.] to it gives it again. *)
Lemma dot_entry_selected (opts : Options) (d0 : Uri) (shown : list Item)
  (answer : list Item -> PickResult) (script : list (list Item -> PickResult)) :
  let dir := Uri_joinPath d0 "." in
  enterBrowsing h opts d0 = Ret (dir, shown) ->
  Uri_joinPath dir "." = dir ->
  itemsOf (answer shown) = Some [mkItem (mkEntry dir (".", FileType.Directory))] ->
  afterPrompt opts dir (answer shown) = Terminal (Some [dir])
  /\ pickWithQuick h (answer :: script) d0 opts = Ret (Some [dir]).
Proof.
  intros dir Henter Hdot Hitems.
  rewrite (pickWithQuick_step opts d0 dir shown answer script Henter).
  unfold afterPrompt. rewrite Hitems.
  assert (item_uri (mkItem (mkEntry dir (".", FileType.Directory))) = dir)
    as Huri by exact Hdot.
  rewrite Huri, String.eqb_refl, andb_false_r. cbn [map]. by rewrite Huri.
Qed.

Lemma formatUris_none (out : Output) : formatUris None out = None.
Proof. done. Qed.

Lemma formatUris_some (us : list Uri) (out : Output) :
  formatUris (Some us) out
  = Some (Js.join (join out)
            (map (fun uri => if fsPath out then Uri_fsPath uri else Uri_path uri) us)).
Proof. done. Qed.

Lemma pickHandler_result (script : list (list Item -> PickResult))
  (args : option Param) (uris : option (list Uri)) :
  pickUris h script (parseArgs args) = Ret uris ->
  pickHandler h script args = pickResult h (parseArgs args) uris.
Proof. intros Huris. unfold pickHandler. by rewrite Huris. Qed.

End NavigationFacts.

(** ** The POSIX platform: joining [.] twice *)

Section PosixFacts.

Lemma split_app (sep : ascii) (a b : string) :
  Js.split sep (a +:+ String sep b) = Js.split sep a ++ Js.split sep b.
Proof.
  unfold Js.split. induction a as [|c a IH].
  - simpl. rewrite Ascii.eqb_refl. by destruct (Js.splitGo sep b).
  - rewrite string_app_cons. simpl.
    destruct (Js.splitGo sep (a +:+ String sep b)) as [p ps].
    destruct (Js.splitGo sep a) as [q qs].
    destruct (Js.splitGo sep b) as [r rs].
    injection IH as -> ->. by destruct (Ascii.eqb c sep).
Qed.

Lemma split_no_sep (sep : ascii) (s : string) :
  Forall (fun seg => includesChar sep seg = false) (Js.split sep s).
Proof.
  unfold Js.split. induction s as [|c s IH]; simpl.
  - by repeat constructor.
  - destruct (Js.splitGo sep s) as [p ps].
    apply Forall_cons in IH as [Hp Hps].
    destruct (Ascii.eqb c sep) eqn:Hc.
    + by repeat constructor.
    + constructor; [|done]. simpl. by rewrite Hc, Hp.
Qed.

Lemma split_join (sep : ascii) (l : list string) :
  l <> [] ->
  Forall (fun seg => includesChar sep seg = false) l ->
  Js.split sep (Js.join (String sep "") l) = l.
Proof.
  induction l as [|x l IH]; [done|]. intros _ Hl.
  apply Forall_cons in Hl as [Hx Hl].
  destruct l as [|y l].
  - simpl. unfold Js.split. by rewrite (splitGo_no_sep _ _ Hx).
  - change (Js.join (String sep "") (x :: y :: l))
      with (x +:+ String sep (Js.join (String sep "") (y :: l))).
    rewrite split_app, IH by done.
    unfold Js.split. by rewrite (splitGo_no_sep _ _ Hx).
Qed.

Lemma properSegment_cons (seg : string) :
  properSegment seg = true ->
  exists c s, seg = String c s /\ Ascii.eqb c "/" = false.
Proof.
  unfold properSegment. destruct seg as [|c s]; [done|].
  intros [_ Hs]%andb_true_iff. apply negb_true_iff in Hs. simpl in Hs.
  apply orb_false_iff in Hs as [Hc _]. eauto.
Qed.

Lemma wellStacked_cons (allow : bool) (top : string) (st : list string) :
  wellStacked allow (top :: st)
  = properSegment top
    && wellStacked allow st
    && (if String.eqb top ".."
        then allow && match st with
                      | [] => true
                      | below :: _ => String.eqb below ".."
                      end
        else true).
Proof. reflexivity. Qed.

Lemma pushSegment_wellStacked (allow : bool) (st : list string) (seg : string) :
  includesChar "/" seg = false ->
  wellStacked allow st = true ->
  wellStacked allow (Posix.pushSegment allow st seg) = true.
Proof.
  intros Hseg Hst. unfold Posix.pushSegment.
  destruct (String.eqb seg "") eqn:He; [done|].
  destruct (String.eqb seg ".") eqn:Hd; [done|]. simpl.
  destruct (String.eqb seg "..") eqn:Hdd.
  - apply String.eqb_eq in Hdd as ->.
    destruct st as [|top st'].
    + by destruct allow.
    + destruct (String.eqb top "..") eqn:Htop.
      * destruct allow; [|done].
        rewrite wellStacked_cons, Hst, Htop. done.
      * rewrite wellStacked_cons in Hst.
        by destruct (properSegment top), (wellStacked allow st').
  - rewrite wellStacked_cons, Hst, Hdd.
    unfold properSegment. rewrite Hd, Hseg.
    destruct seg; [done|]. done.
Qed.

Lemma fold_wellStacked (allow : bool) (segs st : list string) :
  Forall (fun seg => includesChar "/" seg = false) segs ->
  wellStacked allow st = true ->
  wellStacked allow (fold_left (Posix.pushSegment allow) segs st) = true.
Proof.
  revert st. induction segs as [|seg segs IH]; intros st Hsegs Hst; [done|].
  apply Forall_cons in Hsegs as [Hseg Hsegs]. simpl.
  apply IH; [done|]. by apply pushSegment_wellStacked.
Qed.

Lemma wellStacked_proper (allow : bool) (st : list string) :
  wellStacked allow st = true -> Forall (fun seg => properSegment seg = true) st.
Proof.
  induction st as [|top st IH]; [done|]. rewrite wellStacked_cons.
  intros [[Htop Hst]%andb_true_iff _]%andb_true_iff. constructor; auto.
Qed.

Lemma fold_rebuilds (allow : bool) (st : list string) :
  wellStacked allow st = true ->
  fold_left (Posix.pushSegment allow) (rev st) [] = st.
Proof.
  induction st as [|top st IH]; [done|]. rewrite wellStacked_cons.
  intros [[Htop Hst]%andb_true_iff Hdots]%andb_true_iff.
  simpl. rewrite fold_left_app, (IH Hst). simpl.
  unfold Posix.pushSegment. unfold properSegment in Htop.
  apply andb_true_iff in Htop as [[Hne Hdot]%andb_true_iff _].
  apply negb_true_iff in Hdot.
  assert (String.eqb top "" = false) as Hempty by by destruct top.
  rewrite Hempty, Hdot. cbn [orb].
  destruct (String.eqb top "..") eqn:Hdd; [|done].
  apply String.eqb_eq in Hdd as ->.
  apply andb_true_iff in Hdots as [-> Hbelow].
  destruct st as [|below st]; [done|]. by rewrite Hbelow.
Qed.

Lemma join_proper_cons (l : list string) :
  l <> [] ->
  Forall (fun seg => properSegment seg = true) l ->
  exists c s, Js.join "/" l = String c s /\ Ascii.eqb c "/" = false.
Proof.
  destruct l as [|x l]; [done|]. intros _ Hl.
  apply Forall_cons in Hl as [Hx _].
  destruct (properSegment_cons _ Hx) as (c & s & -> & Hc).
  destruct l as [|y l]; simpl; eauto.
Qed.

Lemma endsWith_dot (x : string) : Js.endsWith (x +:+ "/.") "/" = false.
Proof.
  induction x as [|c x IH]; [done|].
  rewrite string_app_cons. cbn [Js.endsWith]. rewrite IH, orb_false_r.
  simpl. destruct (Ascii.eqb c "/"); [|done]. by destruct x.
Qed.

(** What [normalize] returns for a path that does not end with a
    separator: the root, the current directory, or the segments of a well
    formed stack, after a separator when the path is absolute. *)
Lemma normalize_shape (p : string) :
  p <> "" ->
  Js.endsWith p "/" = false ->
  Posix.normalize p = "/" \/ Posix.normalize p = "."
  \/ exists st,
       st <> []
       /\ wellStacked (negb (Js.startsWith p "/")) st = true
       /\ Posix.normalize p
          = (if Js.startsWith p "/" then "/" else "") +:+ Js.join "/" (rev st).
Proof.
  intros Hne Hend. unfold Posix.normalize.
  apply String.eqb_neq in Hne. rewrite Hne, Hend.
  set (abs := Js.startsWith p "/").
  set (st := fold_left (Posix.pushSegment (negb abs)) (Js.split "/" p) []).
  assert (wellStacked (negb abs) st = true) as Hst
    by (apply fold_wellStacked; [apply split_no_sep|done]).
  destruct (String.eqb (Js.join "/" (rev st)) "") eqn:Hbody.
  - destruct abs; auto.
  - right. right. exists st. split; [|split; [done|]].
    + intros ->. done.
    + by rewrite string_app_nil_r.
Qed.

Lemma rev_not_nil (A : Type) (l : list A) : l <> [] -> rev l <> [].
Proof.
  destruct l as [|x l]; [done|]. intros _ Hrev.
  apply (f_equal length) in Hrev. simpl in Hrev.
  rewrite length_app in Hrev. simpl in Hrev. lia.
Qed.

Lemma normalize_fixed (abs : bool) (st : list string) :
  st <> [] ->
  wellStacked (negb abs) st = true ->
  let r := (if abs then "/" else "") +:+ Js.join "/" (rev st) in
  r <> "" /\ Posix.normalize (r +:+ "/.") = r.
Proof.
  intros Hne Hst r.
  pose proof (wellStacked_proper _ _ Hst) as Hproper.
  assert (Forall (fun seg => properSegment seg = true) (rev st)) as Hrev
    by by apply Forall_rev.
  assert (Forall (fun seg => includesChar "/" seg = false) (rev st)) as Hsep.
  { eapply Forall_impl; [exact Hrev|]. intros seg Hseg. simpl.
    unfold properSegment in Hseg.
    apply andb_true_iff in Hseg as [_ Hseg]. by apply negb_true_iff. }
  destruct (join_proper_cons (rev st) (rev_not_nil _ _ Hne) Hrev)
    as (c & body & Hbody & Hc).
  assert (Js.startsWith (r +:+ "/.") "/" = abs) as Habs.
  { subst r. rewrite Hbody. destruct abs; [done|].
    unfold Js.startsWith. simpl. by rewrite Ascii.eqb_sym, Hc. }
  assert (Js.split "/" (r +:+ "/.")
          = (if abs then [""] else []) ++ rev st ++ ["."]) as Hsplit.
  { change (r +:+ "/.") with (r +:+ String "/" "."). rewrite split_app.
    rewrite (assoc_L (++)). f_equal. subst r. destruct abs.
    - change ("/" +:+ Js.join "/" (rev st))
        with ("" +:+ String "/" (Js.join "/" (rev st))).
      rewrite split_app. f_equal. apply split_join; [|done].
      by apply rev_not_nil.
    - rewrite string_app_nil_l. apply split_join; [|done].
      by apply rev_not_nil. }
  split.
  - subst r. rewrite Hbody. by destruct abs.
  - unfold Posix.normalize.
    assert (String.eqb (r +:+ "/.") "" = false) as ->.
    { subst r. rewrite Hbody. by destruct abs. }
    rewrite endsWith_dot, Habs, Hsplit.
    assert (fold_left (Posix.pushSegment (negb abs))
              ((if abs then [""] else []) ++ rev st ++ ["."]) [] = st) as ->.
    { rewrite !fold_left_app.
      assert (fold_left (Posix.pushSegment (negb abs))
                (if abs then [""] else []) [] = []) as -> by by destruct abs.
      by rewrite (fold_rebuilds _ _ Hst). }
    rewrite Hbody. simpl. rewrite string_app_nil_r. subst r.
    by rewrite Hbody.
Qed.

(** Joining [.] to a location already joined with [.] changes nothing,
    at every directory of the POSIX platform. *)
Lemma pathJoin_dot_idempotent (d : string) :
  Posix.pathJoin (Posix.pathJoin d ".") "." = Posix.pathJoin d ".".
Proof.
  assert (exists p, p <> "" /\ Js.endsWith p "/" = false
                    /\ Posix.pathJoin d "." = Posix.normalize p)
    as (p & Hne & Hend & ->).
  { destruct d as [|c d].
    - by exists ".".
    - exists (String c d +:+ "/."). split; [done|].
      split; [apply endsWith_dot|done]. }
  destruct (normalize_shape p Hne Hend) as [-> | [-> | (st & Hst & Hws & ->)]];
    [done|done|].
  destruct (normalize_fixed (Js.startsWith p "/") st Hst Hws) as [Hr Hfix].
  unfold Posix.pathJoin at 1.
  set (r := (if Js.startsWith p "/" then "/" else "") +:+ Js.join "/" (rev st)) in *.
  apply String.eqb_neq in Hr. rewrite Hr. simpl.
  change ("/" +:+ ".") with "/.".
  assert (String.eqb (r +:+ "/.") "" = false) as -> by by destruct r.
  exact Hfix.
Qed.

End PosixFacts.

(** On the POSIX platform the entry [.] ends the navigation in every
    directory that can be listed, with no condition on the platform. *)
Corollary posix_dot_entry_selected (h : Host (H := Posix.platform))
  (opts : Options) (d0 : Uri (Platform := Posix.platform)) (shown : list Item)
  (answer : list Item -> PickResult) (script : list (list Item -> PickResult)) :
  let dir := Uri_joinPath d0 "." in
  enterBrowsing h opts d0 = Ret (dir, shown) ->
  itemsOf (answer shown) = Some [mkItem (mkEntry dir (".", FileType.Directory))] ->
  pickWithQuick h (answer :: script) d0 opts = Ret (Some [dir]).
Proof.
  intros dir Henter Hitems.
  apply (dot_entry_selected h opts d0 shown answer script Henter); [|done].
  destruct d0 as [sch auth p q frag]. unfold dir. simpl.
  unfold Posix.joinPath. simpl. by rewrite pathJoin_dot_idempotent.
Qed.

(** ** Navigation and output: the properties *)

(** C6. The configuration sets [canSelectFolders] and [canChangeFolder] to
    false, gives no filter and does not switch [canSelectFiles] off, so the
    defaults apply. For a directory that holds the files [x.env] and [y.txt] and the
    directory [sub], in any order, the list shown is made of exactly the
    entries of [x.env] and [y.txt]: there is no [..], no [.] and no [sub]. *)
Theorem quick_list_files_only `{Platform} (h : Host) (o : PartialOptions)
  (out : option PartialOutput) (d0 : Uri) (children : list (string * FileType)) :
  p_canSelectFolders o = Some false ->
  p_canChangeFolder o = Some false ->
  p_canSelectFiles o <> Some false ->
  p_filterRegExp o = None ->
  p_filterExt o = None ->
  readDirectory h (Uri_joinPath d0 ".") = Some children ->
  children ≡ₚ [("x.env", FileType.File); ("y.txt", FileType.File);
               ("sub", FileType.Directory)] ->
  exists shown,
    enterBrowsing h (options (parseArgs (Some (ParamObject (Some o) out)))) d0
    = Ret (Uri_joinPath d0 ".", shown)
    /\ shown ≡ₚ
       [ {| item_uri := Uri_joinPath (Uri_joinPath d0 ".") "x.env";
            item_name := "x.env"; item_type := FileType.File;
            item_label := "x.env" |};
         {| item_uri := Uri_joinPath (Uri_joinPath d0 ".") "y.txt";
            item_name := "y.txt"; item_type := FileType.File;
            item_label := "y.txt" |} ].
Proof.
  intros Hsel Hchg Hfiles Hre Hext Hread Hperm.
  set (opts := options (parseArgs (Some (ParamObject (Some o) out)))).
  assert (quickItems h opts (Uri_joinPath d0 ".") children
          = Ret (map (fun c => mkItem (mkEntry (Uri_joinPath d0 ".") c))
                   (List.filter (fun c : string * FileType =>
                                   negb (c.2 =? FileType.Directory)) children)))
    as Hq.
  { apply quickItems_files_only; subst opts; simpl.
    - by rewrite Hsel.
    - by rewrite Hchg.
    - by destruct (p_canSelectFiles o) as [[|]|].
    - by rewrite Hre.
    - by rewrite Hext. }
  eexists. split.
  - unfold enterBrowsing. rewrite Hread. simpl. rewrite Hq. reflexivity.
  - apply (filter_Permutation_bool _
             (fun c : string * FileType => negb (c.2 =? FileType.Directory)))
      in Hperm.
    apply (Permutation_map (fun c => mkItem (mkEntry (Uri_joinPath d0 ".") c)))
      in Hperm.
    exact Hperm.
Qed.

Lemma quick_list_files_only_witness :
  exists shown,
    enterBrowsing Examples.host (options (parseArgs (Some Examples.scenarioArgs)))
      (Posix.file "/w/a")
    = Ret (Posix.file "/w/a", shown)
    /\ map item_label shown ≡ₚ ["x.env"; "y.txt"].
Proof.
  destruct (quick_list_files_only Examples.host
              {| p_path := Some "a"; p_native := None;
                 p_canSelectFiles := None; p_canSelectFolders := Some false;
                 p_canChangeFolder := Some false; p_canSelectMany := None;
                 p_filterRegExp := None; p_filterExt := None;
                 p_defaultInputPath := None; p_defaultWorkspace := None;
                 p_defaultEnvFile := None; p_title := None |}
              None (Posix.file "/w/a") Examples.childrenA
              eq_refl eq_refl ltac:(discriminate) eq_refl eq_refl eq_refl
              (Permutation_refl _)) as (shown & Henter & Hshown).
  exists shown. split; [exact Henter|].
  exact (Permutation_map item_label Hshown).
Defined.

(** C7. Once the list of a directory is shown and the user answers with a
    selection. When the answer is exactly one entry (an item, or an array of
    one item), that entry is a directory, [canChangeFolder] is set and its
    path differs from the path of the current directory, the machine goes
    to [Browsing] on the chosen directory and [pickWithQuick] goes on by
    listing it. In every other case (one entry that misses one of these
    conditions, or an array of none or of several items) the machine goes
    to [Terminal] with the chosen locations, which [pickWithQuick]
    returns. *)
Theorem descend_or_terminate `{Platform} (h : Host) (opts : Options) (d0 dir : Uri)
  (shown : list Item) (answer : list Item -> PickResult)
  (script : list (list Item -> PickResult)) :
  enterBrowsing h opts d0 = Ret (dir, shown) ->
  (forall i,
      answer shown = One i \/ answer shown = Many [i] ->
      (canChangeFolder opts = true
       /\ item_type i = FileType.Directory
       /\ Uri_path (item_uri i) <> Uri_path dir ->
       afterPrompt opts dir (answer shown) = Browsing (item_uri i)
       /\ pickWithQuick h (answer :: script) d0 opts
          = pickWithQuick h script (item_uri i) opts)
      /\ (~ (canChangeFolder opts = true
             /\ item_type i = FileType.Directory
             /\ Uri_path (item_uri i) <> Uri_path dir) ->
          afterPrompt opts dir (answer shown) = Terminal (Some [item_uri i])
          /\ pickWithQuick h (answer :: script) d0 opts = Ret (Some [item_uri i])))
  /\ (forall l,
        answer shown = Many l ->
        length l <> 1%nat ->
        afterPrompt opts dir (answer shown) = Terminal (Some (map item_uri l))
        /\ pickWithQuick h (answer :: script) d0 opts = Ret (Some (map item_uri l))).
Proof.
  intros Henter.
  rewrite (pickWithQuick_step h opts d0 dir shown answer script Henter).
  split.
  - intros i Hanswer.
    assert (afterPrompt opts dir (answer shown)
            = if canChangeFolder opts
                 && (item_type i =? FileType.Directory)
                 && negb (String.eqb (Uri_path (item_uri i)) (Uri_path dir))
              then Browsing (item_uri i)
              else Terminal (Some [item_uri i])) as ->
      by (destruct Hanswer as [-> | ->]; reflexivity).
    split.
    + intros (Hchg & Htype & Hpath%String.eqb_neq).
      by rewrite Hchg, Htype, Hpath.
    + intros Hnot.
      destruct (canChangeFolder opts) eqn:Hchg; [|done].
      destruct (item_type i =? FileType.Directory) eqn:Htype; [|done].
      destruct (String.eqb (Uri_path (item_uri i)) (Uri_path dir)) eqn:Hpath;
        [done|].
      exfalso. apply Hnot. split; [done|].
      split; [by apply N.eqb_eq|by apply String.eqb_neq].
  - intros l -> Hlen. unfold afterPrompt. cbn [itemsOf].
    by destruct l as [|i [|j l]].
Qed.

Lemma descend_or_terminate_witness :
  pickWithQuick Examples.host [Examples.pickNamed "sub"; Examples.pickNamed "."]
    (Posix.file "/w/a") (options (parseArgs (Some Examples.browseArgs)))
  = Ret (Some [Posix.file "/w/a/sub"]).
Proof.
  destruct (descend_or_terminate Examples.host
              (options (parseArgs (Some Examples.browseArgs)))
              (Posix.file "/w/a") (Posix.file "/w/a") _
              (Examples.pickNamed "sub") [Examples.pickNamed "."] eq_refl)
    as [Hone _].
  destruct (Hone (@Build_Item Posix.platform (Posix.file "/w/a/sub") "sub"
                    FileType.Directory "sub/") (or_introl eq_refl))
    as [Hdescend _].
  destruct Hdescend as [_ ->].
  - split; [reflexivity|]. split; [reflexivity|]. discriminate.
  - reflexivity.
Defined.

(** C10. In a [Browsing] state whose list is shown, on a platform where
    joining [.] to the normalised current directory gives that directory
    again: the location of the entry [.] has the path of the current
    directory; the entry is in the list when folders can be selected; and
    selecting just this entry ends in [Terminal] with exactly the current
    directory, whatever [canChangeFolder] is. *)
Theorem dot_entry_terminates `{Platform} (h : Host) (opts : Options) (d0 dir : Uri)
  (shown : list Item) (answer : list Item -> PickResult)
  (script : list (list Item -> PickResult)) :
  enterBrowsing h opts d0 = Ret (dir, shown) ->
  Uri_joinPath (Uri_joinPath d0 ".") "." = Uri_joinPath d0 "." ->
  let dot := mkItem (mkEntry dir (".", FileType.Directory)) in
  Uri_path (item_uri dot) = Uri_path dir
  /\ (canSelectFolders opts = true -> dot ∈ shown)
  /\ (itemsOf (answer shown) = Some [dot] ->
      afterPrompt opts dir (answer shown) = Terminal (Some [dir])
      /\ pickWithQuick h (answer :: script) d0 opts = Ret (Some [dir])).
Proof.
  intros Henter Hdot dot.
  destruct (enterBrowsing_dir h opts d0 dir shown Henter)
    as (-> & children & _ & Hq).
  assert (item_uri dot = Uri_joinPath d0 ".") as Huri by exact Hdot.
  split; [by rewrite Huri|]. split.
  - intros Hsel. by eapply dot_entry_shown.
  - intros Hitems. by apply dot_entry_selected.
Qed.

Lemma dot_entry_terminates_witness :
  pickWithQuick Examples.host [Examples.pickNamed "."] (Posix.file "/w/a")
    (options (parseArgs (Some Examples.browseArgs)))
  = Ret (Some [Posix.file "/w/a"]).
Proof.
  destruct (dot_entry_terminates Examples.host
              (options (parseArgs (Some Examples.browseArgs)))
              (Posix.file "/w/a") (Posix.file "/w/a") _
              (Examples.pickNamed ".") [] eq_refl eq_refl) as (_ & _ & Hpick).
  exact (proj2 (Hpick eq_refl)).
Defined.

(** What the code does with an empty array: [uris != null] holds, the
    array is formatted, and the joining of no string is the empty string. *)
Lemma pickHandler_empty_array `{Platform} (h : Host) (args : option Param)
  (script : list (list Item -> PickResult)) :
  pickUris h script (parseArgs args) = Ret (Some []) ->
  pickHandler h script args = Ret (Some "").
Proof. intros Huris. by rewrite (pickHandler_result h script args _ Huris). Qed.

(** C1. The code at the input where it departs from the claim: the quick
    pick allows several entries, the user accepts the list with nothing
    ticked, and the default text [X] is configured. The selection is the
    empty array; the formatter returns the empty string for it, not
    [undefined]; and [pickHandler] returns the empty string, where a
    dismissed list gives the default text. *)
Theorem empty_selection_returned :
  pickUris Examples.host Examples.acceptNothing (parseArgs (Some Examples.manyArgs))
  = Ret (Some [])
  /\ formatUris (H := Posix.platform) (Some []) (output (parseArgs (Some Examples.manyArgs)))
     = Some ""
  /\ pickHandler Examples.host Examples.acceptNothing (Some Examples.manyArgs)
     = Ret (Some "")
  /\ pickHandler Examples.host Examples.dismiss (Some Examples.manyArgs)
     = Ret (Some "X").
Proof. repeat split; reflexivity. Qed.

(** The workspace name [resolveEnvVariables] hands to [readWorkspaceFile] is
    the env-file path itself, not the configured [defaultWorkspace]: with
    two folders and the name [b] configured, the root resolver finds
    [conf/.env] under [/w/b], and the env file is not located at all. *)
Example env_file_workspace_name :
  resolveEnvPath Examples.twoFolders "conf/.env" (Some "conf/.env") = Ret None
  /\ resolvePath Examples.twoFolders (Some "b") None (Some "conf/.env") (Some "conf/.env")
     = Ret (Some (Posix.file "/w/b/conf/.env")).
Proof. split; reflexivity. Qed.

(** * Further properties *)

(** ** Root resolution *)

Section MoreResolverFacts.

Context `{Platform}.
Variable h : Host.

(** [resolvePath] once the substitution is done, on a path that is not
    absolute: the default input path replaces an empty path, and the
    workspace folders decide; with one folder the path is not parsed. *)
Lemma resolvePath_relative (dw dip envFile : option string) (p : string) :
  Js.startsWith (resolveEnvVariables h (Some p) envFile dw) "/" = false ->
  resolvePath h dw dip envFile (Some p)
  = let q := resolveEnvVariables h (Some p) envFile dw in
    let q := match dip with
             | Some (String _ _ as d) => if String.eqb q "" then d else q
             | _ => q
             end in
    match workspaceFolders h with
    | Some [f] => Ret (Some (Uri_joinPath (wf_uri f) q))
    | _ =>
        match Uri_parse q with
        | None => Threw
        | Some parsed =>
            match findFolder h (fun f =>
                    Js.startsWith (Uri_path parsed)
                      (basename (Uri_path (wf_uri f)) +:+ "/")) with
            | Some f => Ret (Some (Uri_joinPath (wf_uri f) q))
            | None =>
                match dw with
                | Some (String _ _ as name) =>
                    match findFolder h (fun f => String.eqb (wf_name f) name) with
                    | Some f => Ret (Some (Uri_joinPath (wf_uri f) q))
                    | None => Ret None
                    end
                | _ => Ret None
                end
            end
        end
    end.
Proof.
  intros Hrel. unfold resolvePath, parseUri. rewrite Hrel. cbv zeta.
  destruct (workspaceFolders h) as [[|f [|g fs]]|]; try done;
    by destruct (Uri_parse _).
Qed.

Lemma default_input_unused (dip : option string) (q : string) :
  q <> "" ->
  match dip with
  | Some (String _ _ as d) => if String.eqb q "" then d else q
  | _ => q
  end = q.
Proof.
  intros Hq%String.eqb_neq. destruct dip as [[|c d]|]; by rewrite ?Hq.
Qed.

Lemma resolvePath_plain (dw dip envFile : option string) (p : string) :
  p <> "" -> Js.startsWith p "/" = false -> hasPlaceholder p = false ->
  resolvePath h dw dip envFile (Some p)
  = match workspaceFolders h with
    | Some [f] => Ret (Some (Uri_joinPath (wf_uri f) p))
    | _ =>
        match Uri_parse p with
        | None => Threw
        | Some parsed =>
            match findFolder h (fun f =>
                    Js.startsWith (Uri_path parsed)
                      (basename (Uri_path (wf_uri f)) +:+ "/")) with
            | Some f => Ret (Some (Uri_joinPath (wf_uri f) p))
            | None =>
                match dw with
                | Some (String _ _ as name) =>
                    match findFolder h (fun f => String.eqb (wf_name f) name) with
                    | Some f => Ret (Some (Uri_joinPath (wf_uri f) p))
                    | None => Ret None
                    end
                | _ => Ret None
                end
            end
        end
    end.
Proof.
  intros Hne Hrel Hp.
  rewrite resolvePath_relative;
    rewrite (resolveEnvVariables_identity h p envFile dw Hp); [|done].
  cbv zeta. by rewrite (default_input_unused dip p Hne).
Qed.

Lemma resolvePath_not_pending (dw dip envFile path : option string) :
  resolvePath h dw dip envFile path <> Pending.
Proof.
  unfold resolvePath, parseUri.
  repeat (case_match; simpl; try done).
Qed.

End MoreResolverFacts.

(** X1. With exactly one workspace folder, a relative path in which no
    placeholder occurs resolves to the folder joined with the path,
    whatever the workspace name, the default input path and the env file. *)
Theorem resolvePath_single_root `{Platform} (h : Host) (f : WorkspaceFolder)
  (dw dip envFile : option string) (p : string) :
  workspaceFolders h = Some [f] ->
  p <> "" ->
  Js.startsWith p "/" = false ->
  ~ PlaceholderOccurs p ->
  resolvePath h dw dip envFile (Some p) = Ret (Some (Uri_joinPath (wf_uri f) p)).
Proof.
  intros Hf Hne Hrel Hp%hasPlaceholder_false.
  rewrite (resolvePath_plain h dw dip envFile p Hne Hrel Hp). by rewrite Hf.
Qed.

Lemma resolvePath_single_root_witness :
  resolvePath Examples.host (Some "other") (Some "in") (Some "missing.env") (Some "d/e")
  = Ret (Some (Posix.file "/w/d/e")).
Proof.
  apply (resolvePath_single_root Examples.host Examples.folderW).
  - reflexivity.
  - discriminate.
  - reflexivity.
  - apply hasPlaceholder_false. reflexivity.
Defined.

(** X2. When the substituted path is empty and a default input path is
    configured, the default input path takes its place as it is written: it
    is not substituted and not tested for a leading separator, so with one
    workspace folder the result is the folder joined with it. *)
Theorem resolvePath_default_input_path `{Platform} (h : Host) (f : WorkspaceFolder)
  (dw envFile : option string) (p d : string) :
  workspaceFolders h = Some [f] ->
  resolveEnvVariables h (Some p) envFile dw = "" ->
  d <> "" ->
  resolvePath h dw (Some d) envFile (Some p)
  = Ret (Some (Uri_joinPath (wf_uri f) d)).
Proof.
  intros Hf Hq Hd. rewrite resolvePath_relative; rewrite Hq; [|done].
  cbv zeta. rewrite Hf. by destruct d.
Qed.

Lemma resolvePath_default_input_path_witness :
  resolvePath Examples.host None (Some "/${env:D}") None (Some "${env:NONE}")
  = Ret (Some (Posix.file "/w/${env:D}")).
Proof.
  apply (resolvePath_default_input_path Examples.host Examples.folderW).
  - reflexivity.
  - reflexivity.
  - discriminate.
Defined.

(** X3. With no workspace folder, a path that is absent, or that is not
    absolute once substituted, never resolves to a location, whatever the
    workspace name and the default input path: an absent path gives
    [undefined]; a path without placeholder gives [undefined] where
    [Uri.parse] accepts it and the [UriError] where it rejects it. *)
Theorem resolvePath_no_workspace `{Platform} (h : Host)
  (dw dip envFile path : option string) :
  workspaceFolders h = None \/ workspaceFolders h = Some [] ->
  Js.startsWith (resolveEnvVariables h path envFile dw) "/" = false ->
  (forall uri, resolvePath h dw dip envFile path <> Ret (Some uri))
  /\ (path = None -> resolvePath h dw dip envFile path = Ret None)
  /\ (forall p,
        path = Some p -> p <> "" -> ~ PlaceholderOccurs p ->
        resolvePath h dw dip envFile path
        = match Uri_parse p with
          | Some _ => Ret None
          | None => Threw
          end).
Proof.
  intros Hnone Hrel.
  assert (findFolder h = fun _ => None) as Hfind
    by (unfold findFolder; by destruct Hnone as [-> | ->]).
  split; [|split].
  - intros uri. destruct path as [p|].
    + rewrite (resolvePath_relative h dw dip envFile p Hrel). cbv zeta.
      rewrite Hfind.
      destruct Hnone as [-> | ->]; destruct (Uri_parse _);
        by destruct dw as [[|c name]|].
    + unfold resolvePath. by destruct Hnone as [-> | ->].
  - intros ->. unfold resolvePath. by destruct Hnone as [-> | ->].
  - intros p -> Hne Hp%hasPlaceholder_false.
    rewrite (resolveEnvVariables_identity h p envFile dw Hp) in Hrel.
    rewrite (resolvePath_plain h dw dip envFile p Hne Hrel Hp), Hfind.
    destruct Hnone as [-> | ->]; destruct (Uri_parse p);
      by destruct dw as [[|c name]|].
Qed.

Lemma resolvePath_no_workspace_witness :
  resolvePath Inputs.bareHost (Some "w") (Some "in") None (Some "d/e") = Ret None
  /\ resolvePath Inputs.bareHost (Some "w") (Some "in") None (Some "a b:c") = Threw.
Proof.
  assert (~ PlaceholderOccurs "d/e") as Hde
    by (apply hasPlaceholder_false; reflexivity).
  assert (~ PlaceholderOccurs "a b:c") as Habc
    by (apply hasPlaceholder_false; reflexivity).
  split.
  - exact (proj2 (proj2 (resolvePath_no_workspace Inputs.bareHost (Some "w")
                           (Some "in") None (Some "d/e") (or_introl eq_refl) eq_refl))
             "d/e" eq_refl ltac:(discriminate) Hde).
  - exact (proj2 (proj2 (resolvePath_no_workspace Inputs.bareHost (Some "w")
                           (Some "in") None (Some "a b:c") (or_introl eq_refl) eq_refl))
             "a b:c" eq_refl ltac:(discriminate) Habc).
Defined.

(** X4. When there is not exactly one workspace folder, a relative path
    without placeholder that [Uri.parse] accepts and whose leading segment
    matches no folder is unresolved when no workspace name is configured:
    no folder is picked arbitrarily. Where [Uri.parse] rejects the path the
    resolver throws, whatever the workspace name. *)
Theorem resolvePath_unmatched_is_unresolved `{Platform} (h : Host)
  (dip envFile : option string) (p : string) :
  (forall f, workspaceFolders h <> Some [f]) ->
  p <> "" ->
  Js.startsWith p "/" = false ->
  ~ PlaceholderOccurs p ->
  (forall parsed,
      Uri_parse p = Some parsed ->
      findFolder h (fun f =>
          Js.startsWith (Uri_path parsed) (basename (Uri_path (wf_uri f)) +:+ "/"))
      = None ->
      resolvePath h None dip envFile (Some p) = Ret None
      /\ resolvePath h (Some "") dip envFile (Some p) = Ret None)
  /\ (Uri_parse p = None ->
      forall dw, resolvePath h dw dip envFile (Some p) = Threw).
Proof.
  intros Hmany Hne Hrel Hp%hasPlaceholder_false. split.
  - intros parsed Hparsed Hfind.
    rewrite !(resolvePath_plain h _ dip envFile p Hne Hrel Hp), Hparsed, Hfind.
    destruct (workspaceFolders h) as [[|f [|g fs]]|] eqn:Hfs; try done.
    by destruct (Hmany f).
  - intros Hnone dw.
    rewrite (resolvePath_plain h dw dip envFile p Hne Hrel Hp), Hnone.
    destruct (workspaceFolders h) as [[|f [|g fs]]|] eqn:Hfs; try done.
    by destruct (Hmany f).
Qed.

Lemma resolvePath_unmatched_is_unresolved_witness :
  resolvePath Examples.twoFolders None None None (Some "conf/.env") = Ret None
  /\ resolvePath Examples.twoFolders (Some "b") None None (Some "a b:c") = Threw.
Proof.
  assert (~ PlaceholderOccurs "conf/.env") as Hconf
    by (apply hasPlaceholder_false; reflexivity).
  assert (~ PlaceholderOccurs "a b:c") as Habc
    by (apply hasPlaceholder_false; reflexivity).
  split.
  - refine (proj1 (proj1 (resolvePath_unmatched_is_unresolved Examples.twoFolders
                            None None "conf/.env" _ _ eq_refl Hconf)
                     (Posix.file "/conf/.env") eq_refl eq_refl));
      discriminate.
  - refine (proj2 (resolvePath_unmatched_is_unresolved Examples.twoFolders
                     None None "a b:c" _ _ eq_refl Habc) eq_refl (Some "b"));
      discriminate.
Defined.

(** X5. When there is not exactly one workspace folder, a relative path
    without placeholder that [Uri.parse] accepts and whose leading segment
    matches no folder resolves under the first folder whose name is the
    configured workspace name. *)
Theorem resolvePath_default_workspace `{Platform} (h : Host) (f : WorkspaceFolder)
  (dip envFile : option string) (name p : string) (parsed : Uri) :
  (forall g, workspaceFolders h <> Some [g]) ->
  p <> "" ->
  Js.startsWith p "/" = false ->
  ~ PlaceholderOccurs p ->
  Uri_parse p = Some parsed ->
  findFolder h (fun f =>
      Js.startsWith (Uri_path parsed) (basename (Uri_path (wf_uri f)) +:+ "/"))
  = None ->
  name <> "" ->
  findFolder h (fun g => String.eqb (wf_name g) name) = Some f ->
  resolvePath h (Some name) dip envFile (Some p)
  = Ret (Some (Uri_joinPath (wf_uri f) p))
  /\ wf_name f = name.
Proof.
  intros Hmany Hne Hrel Hp%hasPlaceholder_false Hparsed Hfind Hname Hf.
  rewrite (resolvePath_plain h _ dip envFile p Hne Hrel Hp), Hparsed, Hfind, Hf.
  split.
  - destruct (workspaceFolders h) as [[|g [|g' fs]]|] eqn:Hfs;
      try by destruct name.
    by destruct (Hmany g).
  - unfold findFolder in Hf. destruct (workspaceFolders h) as [fs|]; [|done].
    apply find_some in Hf as [_ Heq]. by apply String.eqb_eq.
Qed.

Lemma resolvePath_default_workspace_witness :
  resolvePath Examples.twoFolders (Some "b") None None (Some "conf/.env")
  = Ret (Some (Posix.file "/w/b/conf/.env")).
Proof.
  refine (proj1 (resolvePath_default_workspace Examples.twoFolders
                   (@Build_WorkspaceFolder Posix.platform (Posix.file "/w/b") "b")
                   None None "b" "conf/.env" (Posix.file "/conf/.env")
                   _ _ eq_refl _ eq_refl eq_refl _ eq_refl)).
  - discriminate.
  - discriminate.
  - apply hasPlaceholder_false. reflexivity.
  - discriminate.
Defined.

(** ** Substitution *)

Section MoreSubstitutionFacts.

Lemma matchPlaceholder_dollar (c : ascii) (s : string) :
  Ascii.eqb c "$" = false -> matchPlaceholder (String c s) = None.
Proof.
  intros Hc. unfold matchPlaceholder. simpl.
  by rewrite Ascii.eqb_sym, Hc.
Qed.

Lemma replaceEnv_copy (f : string -> string) (pre t : string) :
  includesChar "$" pre = false ->
  replaceEnv f (pre +:+ t) = pre +:+ replaceEnv f t.
Proof.
  induction pre as [|c pre IH]; [done|]. simpl.
  intros [Hc Hpre]%orb_false_iff.
  rewrite !string_app_cons, replaceEnv_cons, (matchPlaceholder_dollar _ _ Hc).
  by rewrite (IH Hpre).
Qed.

Lemma matchPlaceholder_exact (ws name rest : string) :
  Js.allChars Js.isSpace ws = true ->
  name <> "" ->
  Js.allChars Js.isWord name = true ->
  matchPlaceholder ("${env:" +:+ ws +:+ name +:+ "}" +:+ rest) = Some (name, rest).
Proof.
  intros Hws Hne Hname. unfold matchPlaceholder.
  rewrite dropPrefix_complete, (trimStart_spaces _ _ Hws).
  destruct name as [|c name]; [done|].
  assert (Js.trimStart (String c name +:+ "}" +:+ rest)
          = String c name +:+ "}" +:+ rest) as ->.
  { rewrite ?string_app_cons; simpl. simpl in Hname.
    apply andb_true_iff in Hname as [Hc _].
    by rewrite (word_not_space _ Hc). }
  change ("}" +:+ rest) with (String "}" rest).
  by rewrite (spanWord_word _ _ Hname).
Qed.

Lemma replaceEnv_placeholder (f : string -> string) (pre ws name rest : string) :
  includesChar "$" pre = false ->
  Js.allChars Js.isSpace ws = true ->
  name <> "" ->
  Js.allChars Js.isWord name = true ->
  replaceEnv f (pre +:+ "${env:" +:+ ws +:+ name +:+ "}" +:+ rest)
  = pre +:+ f name +:+ replaceEnv f rest.
Proof.
  intros Hpre Hws Hne Hname. rewrite (replaceEnv_copy _ _ _ Hpre). f_equal.
  pose proof (matchPlaceholder_exact ws name rest Hws Hne Hname) as Hm.
  change ("${env:" +:+ ws +:+ name +:+ "}" +:+ rest)
    with (String "$" ("{env:" +:+ ws +:+ name +:+ "}" +:+ rest)) in *.
  by rewrite replaceEnv_cons, Hm.
Qed.

Context `{Platform}.
Variable h : Host.

Lemma resolveEnvVariables_no_file (p : string) (dw : option string) :
  resolveEnvVariables h (Some p) None dw = replaceEnv (envValue h ∅) p.
Proof. by destruct p. Qed.

Lemma resolveEnvVariables_file (p envFile content : string) (uri : Uri)
  (dw : option string) :
  envFile <> "" ->
  resolveEnvPath h envFile (Some envFile) = Ret (Some uri) ->
  readFile h uri = Some content ->
  resolveEnvVariables h (Some p) (Some envFile) dw
  = replaceEnv (envValue h (parseEnvContent content)) p.
Proof.
  intros Hne Huri Hread. destruct p as [|c p]; [done|].
  destruct envFile as [|e envFile]; [done|].
  unfold resolveEnvVariables, readWorkspaceFile. by rewrite Huri, Hread.
Qed.

End MoreSubstitutionFacts.

(** X6. With no env file, a path made of a text without [$], a placeholder
    and a rest becomes the text, the value of the variable in the process
    environment (nothing when it has none) and the substituted rest. The
    value is put as it is: it is not scanned for placeholders. *)
Theorem substitution_from_process_env `{Platform} (h : Host)
  (pre ws name rest : string) (dw : option string) :
  includesChar "$" pre = false ->
  Js.allChars Js.isSpace ws = true ->
  name <> "" ->
  Js.allChars Js.isWord name = true ->
  resolveEnvVariables h (Some (pre +:+ "${env:" +:+ ws +:+ name +:+ "}" +:+ rest)) None dw
  = pre +:+ default "" (processEnv h name)
    +:+ resolveEnvVariables h (Some rest) None dw.
Proof.
  intros Hpre Hws Hne Hname.
  rewrite !resolveEnvVariables_no_file.
  rewrite (replaceEnv_placeholder _ _ _ _ _ Hpre Hws Hne Hname).
  by rewrite envValue_empty.
Qed.

Lemma substitution_from_process_env_witness :
  resolveEnvVariables Examples.host (Some "a/${env: HOME}/${env:NONE}/b") None None
  = "a//h//b".
Proof.
  etrans.
  - apply (substitution_from_process_env Examples.host "a/" " " "HOME" "/${env:NONE}/b");
      [reflexivity|reflexivity|discriminate|reflexivity].
  - reflexivity.
Defined.

(** X7. With a readable env file, the value of a placeholder is the value
    the file binds to the name, whatever the process environment holds for
    it; the process environment is used only for a name the file does not
    bind. *)
Theorem substitution_prefers_env_file `{Platform} (h : Host)
  (envFile content pre ws name rest : string) (uri : Uri) (dw : option string) :
  envFile <> "" ->
  resolveEnvPath h envFile (Some envFile) = Ret (Some uri) ->
  readFile h uri = Some content ->
  includesChar "$" pre = false ->
  Js.allChars Js.isSpace ws = true ->
  name <> "" ->
  Js.allChars Js.isWord name = true ->
  resolveEnvVariables h (Some (pre +:+ "${env:" +:+ ws +:+ name +:+ "}" +:+ rest))
    (Some envFile) dw
  = pre
    +:+ match parseEnvContent content !! name with
        | Some v => v
        | None => default "" (processEnv h name)
        end
    +:+ resolveEnvVariables h (Some rest) (Some envFile) dw.
Proof.
  intros Hfile Huri Hread Hpre Hws Hne Hname.
  rewrite !(resolveEnvVariables_file h _ envFile content uri dw Hfile Huri Hread).
  rewrite (replaceEnv_placeholder _ _ _ _ _ Hpre Hws Hne Hname).
  unfold envValue at 1.
  by destruct (parseEnvContent content !! name), (processEnv h name).
Qed.

Lemma substitution_prefers_env_file_witness :
  resolveEnvVariables Inputs.envHost (Some "x/${env:D}/${env:HOME}") (Some ".env") None
  = "x/file//h".
Proof.
  etrans.
  - apply (substitution_prefers_env_file Inputs.envHost ".env"
             ("D=file" +:+ String "010" "E = 'q' ") "x/" "" "D" "/${env:HOME}"
             (Posix.file "/w/.env"));
      [discriminate|reflexivity|reflexivity|reflexivity|reflexivity|discriminate
      |reflexivity].
  - reflexivity.
Defined.

(** ** Env-file parser *)

Section MoreParserFacts.

Local Abbreviation addLine :=
  (fun (envMap : gmap string string) (line : string) =>
     match lineEntry line with
     | Some (key, value) => <[key := value]> envMap
     | None => envMap
     end).

Lemma fold_bound_iff (lines : list string) (k : string) (m : gmap string string) :
  is_Some (fold_left addLine lines m !! k)
  <-> is_Some (m !! k) \/ exists line, line ∈ lines /\ lineKey line = Some k.
Proof.
  revert m. induction lines as [|l lines IH]; intros m; simpl.
  - split; [by left|]. intros [Hm | (line & Hin & _)]; [done|inversion Hin].
  - rewrite IH. unfold lineKey at 2.
    destruct (lineEntry l) as [[k' v']|] eqn:Hl.
    + destruct (decide (k' = k)) as [->|Hne].
      * rewrite lookup_insert_eq. split.
        -- intros _. right. exists l. split; [by left|].
           unfold lineKey. by rewrite Hl.
        -- intros _. left. eauto.
      * rewrite lookup_insert_ne by done. split.
        -- intros [Hm | (line & Hin & Hline)]; [by left|].
           right. exists line. split; [by right|done].
        -- intros [Hm | (line & Hin & Hline)]; [by left|].
           apply elem_of_cons in Hin as [->|Hin].
           ++ unfold lineKey in Hline. rewrite Hl in Hline. simpl in Hline.
              congruence.
           ++ right. by exists line.
    + split.
      * intros [Hm | (line & Hin & Hline)]; [by left|].
        right. exists line. split; [by right|done].
      * intros [Hm | (line & Hin & Hline)]; [by left|].
        apply elem_of_cons in Hin as [->|Hin].
        -- unfold lineKey in Hline. by rewrite Hl in Hline.
        -- right. by exists line.
Qed.

Lemma trimStart_head (s : string) :
  Js.trimStart s = ""
  \/ exists c r, Js.trimStart s = String c r /\ Js.isSpace c = false.
Proof.
  induction s as [|c s IH]; simpl; [by left|].
  destruct (Js.isSpace c) eqn:Hc; [done|]. right. eauto.
Qed.

Lemma trimEnd_idempotent (s : string) : Js.trimEnd (Js.trimEnd s) = Js.trimEnd s.
Proof.
  induction s as [|c s IH]; [done|]. cbn [Js.trimEnd].
  destruct (Js.trimEnd s) as [|d t] eqn:Ht.
  - destruct (Js.isSpace c) eqn:Hc; [done|]. simpl. by rewrite Hc.
  - cbn [Js.trimEnd]. cbn [Js.trimEnd] in IH. by rewrite IH.
Qed.

Lemma trimEnd_head (c : ascii) (r : string) :
  Js.isSpace c = false -> exists r', Js.trimEnd (String c r) = String c r'.
Proof.
  intros Hc. cbn [Js.trimEnd]. destruct (Js.trimEnd r); rewrite ?Hc; eauto.
Qed.

Lemma trim_idempotent (s : string) : Js.trim (Js.trim s) = Js.trim s.
Proof.
  unfold Js.trim.
  destruct (trimStart_head s) as [-> | (c & r & -> & Hc)]; [done|].
  destruct (trimEnd_head c r Hc) as [r' Hr]. rewrite Hr.
  assert (Js.trimStart (String c r') = String c r') as ->
    by (simpl; by rewrite Hc).
  by rewrite <- Hr, trimEnd_idempotent.
Qed.

Lemma lineKey_trimmed (line k : string) : lineKey line = Some k -> Js.trim k = k.
Proof.
  unfold lineKey, lineEntry.
  destruct (_ || _); [done|].
  destruct (Js.splitGo "=" line) as [key parts].
  destruct (Js.truthy key); [|done]. simpl. intros [= <-].
  apply trim_idempotent.
Qed.

End MoreParserFacts.

Section LineFacts.

Lemma startsWith_LF_cons (c : ascii) (s : string) :
  Js.startsWith (String c s) LF = Ascii.eqb "010" c.
Proof. unfold Js.startsWith. simpl. by destruct (Ascii.eqb "010" c). Qed.

Lemma includes_LF_startsWith (s t : string) :
  includesChar "010" s = false -> s <> "" -> Js.startsWith (s +:+ t) LF = false.
Proof.
  destruct s as [|c s]; [done|]. simpl. intros [Hc _]%orb_false_iff _.
  rewrite string_app_cons, startsWith_LF_cons. by rewrite Ascii.eqb_sym.
Qed.

Lemma splitLinesGo_last (l : string) :
  includesChar "010" l = false -> Js.splitLinesGo l = (l, []).
Proof.
  induction l as [|c l IH]; [done|]. simpl.
  intros [Hc Hl]%orb_false_iff. rewrite (IH Hl), Hc.
  destruct (Ascii.eqb c "013"); [|done]. simpl.
  destruct l as [|d l]; [done|]. fold LF. rewrite startsWith_LF_cons.
  simpl in Hl. apply orb_false_iff in Hl as [Hd _].
  by rewrite Ascii.eqb_sym, Hd.
Qed.

Lemma splitLinesGo_LF (l s : string) :
  plainLine l = true ->
  Js.splitLinesGo (l +:+ LF +:+ s) = (l, Js.splitLines s).
Proof.
  unfold plainLine, Js.splitLines.
  intros [Hlf Hcr]%andb_true_iff.
  apply negb_true_iff in Hlf. apply negb_true_iff in Hcr.
  induction l as [|c l IH].
  - change ("" +:+ LF +:+ s) with (String "010" s). simpl.
    by destruct (Js.splitLinesGo s); rewrite ?Ascii.eqb_refl.
  - simpl in Hlf. apply orb_false_iff in Hlf as [Hc Hl].
    cbn [Js.endsWith] in Hcr. apply orb_false_iff in Hcr as [Hone Hcr].
    rewrite string_app_cons. simpl. rewrite (IH Hl Hcr), Hc.
    destruct (Js.splitLinesGo s) as [p ps].
    destruct (Ascii.eqb c "013") eqn:Hc13; [|done]. simpl.
    fold LF. destruct l as [|d l].
    + apply Ascii.eqb_eq in Hc13 as ->. done.
    + rewrite (includes_LF_startsWith (String d l) (LF +:+ s)); done.
Qed.

Lemma splitLinesGo_CRLF (l s : string) :
  includesChar "010" l = false ->
  Js.splitLinesGo (l +:+ CRLF +:+ s) = (l, Js.splitLines s).
Proof.
  unfold Js.splitLines. intros Hlf.
  induction l as [|c l IH].
  - change ("" +:+ CRLF +:+ s) with (String "013" (String "010" s)). simpl.
    by destruct (Js.splitLinesGo s).
  - simpl in Hlf. apply orb_false_iff in Hlf as [Hc Hl].
    rewrite string_app_cons. simpl. rewrite (IH Hl), Hc.
    destruct (Js.splitLinesGo s) as [p ps].
    destruct (Ascii.eqb c "013") eqn:Hc13; [|done]. simpl.
    fold LF. destruct l as [|d l].
    + change ("" +:+ CRLF +:+ s) with (String "013" (String "010" s)).
      by rewrite startsWith_LF_cons.
    + rewrite (includes_LF_startsWith (String d l) (CRLF +:+ s)); done.
Qed.

Lemma plainLine_no_LF (l : string) : plainLine l = true -> includesChar "010" l = false.
Proof.
  unfold plainLine. intros [Hlf _]%andb_true_iff. by apply negb_true_iff.
Qed.

Lemma splitLines_join_LF (lines : list string) :
  lines <> [] ->
  forallb plainLine lines = true ->
  Js.splitLines (Js.join LF lines) = lines.
Proof.
  induction lines as [|l lines IH]; [done|]. intros _ Hall.
  simpl in Hall. apply andb_true_iff in Hall as [Hl Hall].
  destruct lines as [|l' lines].
  - simpl. unfold Js.splitLines.
    by rewrite (splitLinesGo_last _ (plainLine_no_LF _ Hl)).
  - change (Js.join LF (l :: l' :: lines))
      with (l +:+ LF +:+ Js.join LF (l' :: lines)).
    unfold Js.splitLines at 1. rewrite (splitLinesGo_LF _ _ Hl).
    by rewrite IH.
Qed.

Lemma splitLines_join_CRLF (lines : list string) :
  lines <> [] ->
  forallb plainLine lines = true ->
  Js.splitLines (Js.join CRLF lines) = lines.
Proof.
  induction lines as [|l lines IH]; [done|]. intros _ Hall.
  simpl in Hall. apply andb_true_iff in Hall as [Hl Hall].
  destruct lines as [|l' lines].
  - simpl. unfold Js.splitLines.
    by rewrite (splitLinesGo_last _ (plainLine_no_LF _ Hl)).
  - change (Js.join CRLF (l :: l' :: lines))
      with (l +:+ CRLF +:+ Js.join CRLF (l' :: lines)).
    unfold Js.splitLines at 1.
    rewrite (splitLinesGo_CRLF _ _ (plainLine_no_LF _ Hl)).
    by rewrite IH.
Qed.

End LineFacts.

(** X8. A key is in the map of an env file exactly when some line of the
    file binds it: looking up a key no line binds gives nothing, and no
    binding is ever lost. *)
Theorem parse_key_bound_iff (content k : string) :
  is_Some (parseEnvContent content !! k)
  <-> exists line, line ∈ Js.splitLines content /\ lineKey line = Some k.
Proof.
  unfold parseEnvContent. rewrite fold_bound_iff, lookup_empty. split.
  - intros [[v Hv] | Hline]; [done|done].
  - intros Hline. by right.
Qed.

(** X9. Every key of the map of an env file is trimmed: it has no white
    space at either end. *)
Theorem parse_keys_trimmed (content k : string) :
  is_Some (parseEnvContent content !! k) -> Js.trim k = k.
Proof.
  unfold parseEnvContent. rewrite fold_bound_iff, lookup_empty.
  intros [[v Hv] | (line & _ & Hline)]; [done|].
  by eapply lineKey_trimmed.
Qed.

Lemma parse_keys_trimmed_witness :
  is_Some (parseEnvContent "  A B  = 1" !! "A B") /\ Js.trim "A B" = "A B".
Proof.
  assert (is_Some (parseEnvContent "  A B  = 1" !! "A B")) as Hk
    by (vm_compute; eauto).
  split; [exact Hk|]. exact (parse_keys_trimmed "  A B  = 1" "A B" Hk).
Defined.

(** X10. Lines that hold no line feed and do not end with a carriage
    return are read back from their joining, with line feeds as with
    carriage return and line feed; so an env file parses to the same map
    with either line ending. *)
Theorem line_endings_agree (lines : list string) :
  lines <> [] ->
  forallb plainLine lines = true ->
  Js.splitLines (Js.join LF lines) = lines
  /\ Js.splitLines (Js.join CRLF lines) = lines
  /\ parseEnvContent (Js.join CRLF lines) = parseEnvContent (Js.join LF lines).
Proof.
  intros Hne Hall.
  pose proof (splitLines_join_LF lines Hne Hall) as Hlf.
  pose proof (splitLines_join_CRLF lines Hne Hall) as Hcrlf.
  split; [done|]. split; [done|].
  unfold parseEnvContent. by rewrite Hlf, Hcrlf.
Qed.

Lemma line_endings_agree_witness :
  parseEnvContent (Js.join CRLF ["A=1"; "# c"; "B = x"])
  = parseEnvContent (Js.join LF ["A=1"; "# c"; "B = x"]).
Proof.
  refine (proj2 (proj2 (line_endings_agree ["A=1"; "# c"; "B = x"] _ eq_refl))).
  discriminate.
Defined.

(** ** The list shown, the output and the pick operation *)

Section MoreNavigationFacts.

Context `{Platform}.
Variable h : Host.

Lemma filterOutcome_elem (A : Type) (p : A -> Outcome bool) (l r : list A) (x : A) :
  filterOutcome p l = Ret r -> x ∈ r -> x ∈ l /\ p x = Ret true.
Proof.
  revert r. induction l as [|y l IH]; intros r Hr Hx; simpl in Hr.
  - injection Hr as <-. inversion Hx.
  - destruct (p y) as [b| |] eqn:Hy; try done. simpl in Hr.
    destruct (filterOutcome p l) as [r'| |]; try done. simpl in Hr.
    injection Hr as <-. destruct b.
    + apply elem_of_cons in Hx as [->|Hx]; [split; [by left|done]|].
      destruct (IH r' eq_refl Hx). split; [by right|done].
    + destruct (IH r' eq_refl Hx). split; [by right|done].
Qed.

Lemma filterOutcome_sublist (A : Type) (p : A -> Outcome bool) (l r : list A) :
  filterOutcome p l = Ret r -> r `sublist_of` l.
Proof.
  revert r. induction l as [|y l IH]; intros r Hr; simpl in Hr.
  - by injection Hr as <-.
  - destruct (p y) as [b| |]; try done. simpl in Hr.
    destruct (filterOutcome p l) as [r'| |]; try done. simpl in Hr.
    injection Hr as <-. specialize (IH r' eq_refl).
    destruct b; [by apply sublist_skip|by apply sublist_cons].
Qed.

Lemma filterOutcome_threw (A : Type) (p : A -> Outcome bool) (l : list A) :
  (forall x, p x <> Pending) ->
  filterOutcome p l = Threw <-> exists x, x ∈ l /\ p x = Threw.
Proof.
  intros Hp. induction l as [|y l IH]; simpl.
  - split; [done|]. intros (x & Hx & _). inversion Hx.
  - destruct (p y) as [b| |] eqn:Hy; simpl.
    + destruct (filterOutcome p l) as [r'| |] eqn:Hl; simpl.
      * split; [done|]. intros (x & Hx & Hpx).
        apply elem_of_cons in Hx as [->|Hx]; [congruence|].
        assert (Ret r' = Threw) as Habs by (apply IH; eauto). done.
      * split; [|done]. intros _.
        destruct (proj1 IH eq_refl) as (x & Hx & Hpx).
        exists x. split; [by right|done].
      * split; [done|]. intros (x & Hx & Hpx).
        apply elem_of_cons in Hx as [->|Hx]; [congruence|].
        assert (Pending = Threw) as Habs by (apply IH; eauto). done.
    + split; [|done]. intros _. exists y. split; [by left|done].
    + by destruct (Hp y).
Qed.

Lemma filterOutcome_not_pending (A : Type) (p : A -> Outcome bool) (l : list A) :
  (forall x, p x <> Pending) -> filterOutcome p l <> Pending.
Proof.
  intros Hp. induction l as [|y l IH]; simpl; [done|].
  destruct (p y) as [b| |] eqn:Hy; simpl; [|done|by destruct (Hp y)].
  by destruct (filterOutcome p l).
Qed.

Lemma filter_sublist_bool (A : Type) (p : A -> bool) (l : list A) :
  List.filter p l `sublist_of` l.
Proof.
  induction l as [|x l IH]; simpl; [done|].
  destruct (p x); [by apply sublist_skip|by apply sublist_cons].
Qed.

Lemma map_sublist (A B : Type) (f : A -> B) (l l' : list A) :
  l `sublist_of` l' -> map f l `sublist_of` map f l'.
Proof.
  induction 1; simpl; [done|by apply sublist_skip|by apply sublist_cons].
Qed.

Lemma regExpFilter_not_pending (regx : option string) (e : Entry) :
  regExpFilter h regx e <> Pending.
Proof.
  unfold regExpFilter. destruct (e_type e =? FileType.Directory); [done|].
  destruct regx as [r|]; [|done]. by destruct (regExp h r).
Qed.

Lemma regExpFilter_threw (regx : option string) (e : Entry) :
  regExpFilter h regx e = Threw
  <-> e_type e <> FileType.Directory
      /\ exists r, regx = Some r /\ regExp h r = None.
Proof.
  unfold regExpFilter.
  destruct (N.eqb_spec (e_type e) FileType.Directory) as [Hd|Hd].
  - split; [done|]. by intros [? _].
  - destruct regx as [r|].
    + destruct (regExp h r) as [test|] eqn:Hr.
      * split; [done|]. intros [_ (r' & [= <-] & Hr')]. congruence.
      * split; [|done]. intros _. split; [done|]. by exists r.
    + split; [done|]. by intros [_ (r' & ? & _)].
Qed.

Lemma regExpFilter_true (regx : option string) (e : Entry) :
  regExpFilter h regx e = Ret true ->
  e_type e <> FileType.Directory ->
  forall r, regx = Some r ->
            exists test, regExp h r = Some test /\ test (Uri_path (e_uri e)) = true.
Proof.
  unfold regExpFilter. intros Hre Hd r ->.
  destruct (N.eqb_spec (e_type e) FileType.Directory) as [|_]; [done|].
  destruct (regExp h r) as [test|]; [|done].
  injection Hre as Hre. by exists test.
Qed.

(** The list shown, entry by entry: the candidates that pass the four
    filters, labelled. *)
Lemma quickItems_elem (opts : Options) (dir : Uri)
  (children : list (string * FileType)) (shown : list Item) (i : Item) :
  quickItems h opts dir children = Ret shown ->
  i ∈ shown ->
  exists c,
    c ∈ candidates opts children
    /\ i = mkItem (mkEntry dir c)
    /\ regExpFilter h (filterRegExp opts) (mkEntry dir c) = Ret true
    /\ extFilter (filterExt opts) (mkEntry dir c) = true
    /\ folderFilter opts (mkEntry dir c) = true
    /\ fileFilter opts (mkEntry dir c) = true.
Proof.
  unfold quickItems. fold (candidates opts children).
  destruct (filterOutcome _ _) as [l| |] eqn:Hl; try done.
  simpl. intros [= <-] Hi.
  apply list_elem_of_In, in_map_iff in Hi as (e & <- & He).
  apply filter_In in He as [He Hfile].
  apply filter_In in He as [He Hfolder].
  apply filter_In in He as [He Hext].
  apply list_elem_of_In in He.
  destruct (filterOutcome_elem _ _ _ _ _ Hl He) as [Hin Hre].
  apply list_elem_of_In, in_map_iff in Hin as (c & <- & Hc).
  exists c. by rewrite list_elem_of_In.
Qed.

Lemma quickItems_shows (opts : Options) (dir : Uri)
  (children : list (string * FileType)) (shown : list Item) (c : string * FileType) :
  quickItems h opts dir children = Ret shown ->
  c ∈ candidates opts children ->
  regExpFilter h (filterRegExp opts) (mkEntry dir c) = Ret true ->
  extFilter (filterExt opts) (mkEntry dir c) = true ->
  folderFilter opts (mkEntry dir c) = true ->
  fileFilter opts (mkEntry dir c) = true ->
  mkItem (mkEntry dir c) ∈ shown.
Proof.
  unfold quickItems. fold (candidates opts children).
  destruct (filterOutcome _ _) as [l| |] eqn:Hl; try done.
  simpl. intros [= <-] Hc Hre Hext Hfolder Hfile.
  apply list_elem_of_In, in_map.
  repeat (apply filter_In; split); try done.
  apply list_elem_of_In.
  eapply filterOutcome_keeps; [exact Hl| |done].
  by apply list_elem_of_In, in_map, list_elem_of_In.
Qed.

Lemma candidates_file (opts : Options) (children : list (string * FileType))
  (c : string * FileType) :
  c ∈ candidates opts children -> c.2 <> FileType.Directory -> c ∈ children.
Proof.
  unfold candidates. intros Hc Hd.
  apply elem_of_app in Hc as [Hc|Hc].
  { destruct (canChangeFolder opts); [|inversion Hc].
    apply list_elem_of_singleton in Hc as ->. done. }
  apply elem_of_app in Hc as [Hc|Hc]; [|done].
  destruct (canSelectFolders opts); [|inversion Hc].
  apply list_elem_of_singleton in Hc as ->. done.
Qed.

Lemma candidates_child (opts : Options) (children : list (string * FileType))
  (c : string * FileType) :
  c ∈ children -> c ∈ candidates opts children.
Proof.
  intros Hc. unfold candidates. apply elem_of_app. right.
  apply elem_of_app. by right.
Qed.

End MoreNavigationFacts.

(** X11. What is shown passes the gates and the filters: every entry of the
    list comes from a candidate of the directory; a directory is there only
    if folders can be selected or changed, a plain file only if files can
    be selected; and an entry that is not a directory has a path that ends
    with the extension filter and that the regular expression accepts, when
    these are configured. *)
Theorem shown_entries_pass_filters `{Platform} (h : Host) (opts : Options) (dir : Uri)
  (children : list (string * FileType)) (shown : list Item) (i : Item) :
  quickItems h opts dir children = Ret shown ->
  i ∈ shown ->
  (exists c, c ∈ candidates opts children /\ i = mkItem (mkEntry dir c))
  /\ (item_type i = FileType.Directory ->
      canSelectFolders opts || canChangeFolder opts = true)
  /\ (item_type i = FileType.File -> canSelectFiles opts = true)
  /\ (item_type i <> FileType.Directory ->
      (forall ext, filterExt opts = Some ext ->
                   Js.endsWith (Uri_path (item_uri i)) ext = true)
      /\ (forall r, filterRegExp opts = Some r ->
                    exists test, regExp h r = Some test
                                 /\ test (Uri_path (item_uri i)) = true)).
Proof.
  intros Hq Hi.
  destruct (quickItems_elem h opts dir children shown i Hq Hi)
    as (c & Hc & -> & Hre & Hext & Hfolder & Hfile).
  split; [by exists c|]. cbn [item_type item_uri mkItem].
  split; [|split].
  - intros Hd. unfold folderFilter in Hfolder. rewrite Hd in Hfolder.
    by rewrite <- orb_assoc in Hfolder.
  - intros Hf. unfold fileFilter in Hfile. by rewrite Hf in Hfile.
  - intros Hd. split.
    + intros ext Hsome. unfold extFilter in Hext. rewrite Hsome in Hext.
      apply N.eqb_neq in Hd. by rewrite Hd in Hext.
    + intros r Hsome. by eapply regExpFilter_true.
Qed.

Lemma shown_entries_pass_filters_witness :
  Js.endsWith "/w/a/x.env" ".env" = true.
Proof.
  refine (proj1 (proj2 (proj2 (proj2
    (shown_entries_pass_filters Examples.host Inputs.extOptions (Posix.file "/w/a")
       Examples.childrenA _
       (@Build_Item Posix.platform (Posix.file "/w/a/x.env") "x.env"
          FileType.File "x.env")
       eq_refl _))) _) ".env" eq_refl).
  - right. left.
  - discriminate.
Defined.

(** X12. Directories are exempt from both filters: when folders can be
    selected or changed and the list is built, every directory of the
    listing is in it, whatever the extension filter and the regular
    expression. *)
Theorem directories_pass_filters `{Platform} (h : Host) (opts : Options) (dir : Uri)
  (children : list (string * FileType)) (shown : list Item) (name : string) :
  canSelectFolders opts || canChangeFolder opts = true ->
  quickItems h opts dir children = Ret shown ->
  (name, FileType.Directory) ∈ children ->
  {| item_uri := Uri_joinPath dir name; item_name := name;
     item_type := FileType.Directory; item_label := name +:+ "/" |} ∈ shown.
Proof.
  intros Hflags Hq Hc.
  apply (quickItems_shows h opts dir children shown (name, FileType.Directory) Hq);
    try done.
  by apply candidates_child.
Qed.

Lemma directories_pass_filters_witness :
  exists shown,
    quickItems Examples.host Inputs.extOptions (Posix.file "/w/a")
      Examples.childrenA = Ret shown
    /\ @Build_Item Posix.platform (Posix.file "/w/a/sub") "sub"
         FileType.Directory "sub/" ∈ shown.
Proof.
  eexists. split; [reflexivity|].
  apply (directories_pass_filters Examples.host Inputs.extOptions (Posix.file "/w/a")
           Examples.childrenA _ "sub" eq_refl eq_refl).
  right. right. left.
Defined.

(** X13. The list shown keeps the order of the candidates: it is the
    pseudo-entries and then the listing, with entries left out and none
    added or moved. *)
Theorem shown_keeps_order `{Platform} (h : Host) (opts : Options) (dir : Uri)
  (children : list (string * FileType)) (shown : list Item) :
  quickItems h opts dir children = Ret shown ->
  shown `sublist_of`
    map (fun c => mkItem (mkEntry dir c)) (candidates opts children).
Proof.
  unfold quickItems. fold (candidates opts children).
  destruct (filterOutcome _ _) as [l| |] eqn:Hl; try done.
  simpl. intros [= <-]. rewrite <- (map_map (mkEntry dir) mkItem).
  apply map_sublist.
  etrans; [apply filter_sublist_bool|].
  etrans; [apply filter_sublist_bool|].
  etrans; [apply filter_sublist_bool|].
  by eapply filterOutcome_sublist.
Qed.

Lemma shown_keeps_order_witness :
  exists shown,
    quickItems Examples.host Inputs.extOptions (Posix.file "/w/a")
      Examples.childrenA = Ret shown
    /\ map item_name shown `sublist_of` ["."; "x.env"; "y.txt"; "sub"].
Proof.
  eexists. split; [reflexivity|].
  exact (map_sublist _ _ item_name _ _
           (shown_keeps_order Examples.host Inputs.extOptions (Posix.file "/w/a")
              Examples.childrenA _ eq_refl)).
Defined.

(** X14. Building the list throws exactly when a regular expression is
    configured, it is malformed, and the listing holds an entry that is not
    a directory; a malformed expression goes unnoticed in a directory of
    directories. Building the list never stays pending. *)
Theorem malformed_regexp_throws `{Platform} (h : Host) (opts : Options) (dir : Uri)
  (children : list (string * FileType)) :
  (quickItems h opts dir children = Threw
   <-> exists r, filterRegExp opts = Some r
                 /\ regExp h r = None
                 /\ exists c, c ∈ children /\ c.2 <> FileType.Directory)
  /\ quickItems h opts dir children <> Pending.
Proof.
  unfold quickItems. fold (candidates opts children).
  pose proof (filterOutcome_threw _ (regExpFilter h (filterRegExp opts))
                (map (mkEntry dir) (candidates opts children))
                (regExpFilter_not_pending h _)) as Hthrew.
  pose proof (filterOutcome_not_pending _ (regExpFilter h (filterRegExp opts))
                (map (mkEntry dir) (candidates opts children))
                (regExpFilter_not_pending h _)) as Hpending.
  destruct (filterOutcome _ _) as [l| |] eqn:Hl; simpl; [| |done].
  - split; [|done]. split; [done|].
    intros (r & Hr & Hbad & c & Hc & Hd).
    assert (Ret l = Threw) as Habs; [|done].
    apply Hthrew. exists (mkEntry dir c). split.
    + by apply list_elem_of_In, in_map, list_elem_of_In, candidates_child.
    + apply regExpFilter_threw. split; [done|]. by exists r.
  - split; [|done]. split; [|done]. intros _.
    destruct (proj1 Hthrew eq_refl) as (e & He & Hre).
    apply list_elem_of_In, in_map_iff in He as (c & <- & Hc).
    apply list_elem_of_In in Hc.
    apply regExpFilter_threw in Hre as (Hd & r & Hr & Hbad).
    exists r. split; [done|]. split; [done|].
    exists c. split; [|done]. by eapply candidates_file.
Qed.

(** X15. With a one-character separator, a selection that is not empty and
    whose rendered locations do not hold the separator is read back from
    the output: splitting the output at the separator gives the rendered
    locations, in order. *)
Theorem formatUris_split `{Platform} (out : Output) (sep : ascii) (us : list Uri) :
  join out = String sep "" ->
  us <> [] ->
  Forall (fun u => includesChar sep (rendered out u) = false) us ->
  exists s,
    formatUris (Some us) out = Some s
    /\ Js.split sep s = map (rendered out) us.
Proof.
  intros Hsep Hne Hus. eexists. split; [reflexivity|].
  rewrite Hsep. apply split_join.
  - by destruct us.
  - by apply Forall_map.
Qed.

Lemma formatUris_split_witness :
  exists s,
    formatUris (H := Posix.platform)
      (Some [Posix.file "/w/a/x.env"; Posix.file "/w/a/y.txt"]) defaultOutput
    = Some s
    /\ Js.split "," s = ["/w/a/x.env"; "/w/a/y.txt"].
Proof.
  apply (formatUris_split (H := Posix.platform) defaultOutput ","
           [Posix.file "/w/a/x.env"; Posix.file "/w/a/y.txt"] eq_refl).
  - discriminate.
  - by repeat constructor.
Defined.

(** X17. When the directory to browse cannot be listed, the quick pick
    throws before any prompt and [pickHandler] throws with it: the failure
    is not turned into an empty list, and a configured default is not
    returned. The directory to browse is the resolved root, or the location
    of the empty string when the root is unresolved; [pickHandler] throws
    as well when the root resolver or that parsing throws. *)
Theorem unreadable_directory_throws `{Platform} (h : Host) (args : option Param)
  (script : list (list Item -> PickResult)) :
  let p := parseArgs args in
  native (options p) = false ->
  (forall root dir,
      resolvePath h (defaultWorkspace (options p)) (defaultInputPath (options p))
        (defaultEnvFile (options p)) (path (options p)) = Ret root ->
      match root with
      | Some uri => Some uri
      | None => Uri_parse ""
      end = Some dir ->
      readDirectory h (Uri_joinPath dir ".") = None) ->
  (forall dir opts,
      readDirectory h (Uri_joinPath dir ".") = None ->
      pickWithQuick h script dir opts = Threw)
  /\ pickHandler h script args = Threw.
Proof.
  intros p Hnative Hread.
  assert (forall dir opts,
             readDirectory h (Uri_joinPath dir ".") = None ->
             pickWithQuick h script dir opts = Threw) as Hquick.
  { intros dir opts Hdir.
    destruct script; simpl; unfold enterBrowsing; by rewrite Hdir. }
  split; [done|].
  unfold pickHandler, pickUris. fold p. rewrite Hnative.
  destruct (resolvePath h _ _ _ _) as [root| |] eqn:Hroot;
    [|done|by destruct (resolvePath_not_pending h _ _ _ _ Hroot)].
  simpl. specialize (Hread root). unfold parseUri.
  destruct root as [uri|].
  - simpl. by rewrite (Hquick uri (options p) (Hread uri eq_refl eq_refl)).
  - destruct (Uri_parse "") as [dir|]; [|done].
    simpl. by rewrite (Hquick dir (options p) (Hread dir eq_refl eq_refl)).
Qed.

Lemma unreadable_directory_throws_witness :
  pickHandler Examples.host Examples.dismiss (Some Inputs.nowhereArgs) = Threw.
Proof.
  refine (proj2 (unreadable_directory_throws Examples.host (Some Inputs.nowhereArgs)
                   Examples.dismiss eq_refl _)).
  intros root dir Hroot Hdir.
  vm_compute in Hroot. injection Hroot as <-.
  vm_compute in Hdir. injection Hdir as <-.
  reflexivity.
Defined.

Section MoreRunFacts.

Context `{Platform}.
Variable h : Host.

Lemma afterPrompt_terminal (opts : Options) (dir : Uri) (res : PickResult)
  (sel : option (list Uri)) :
  afterPrompt opts dir res = Terminal sel ->
  (res = Cancelled /\ sel = None)
  \/ (exists i, res = One i /\ sel = Some [item_uri i])
  \/ (exists l, res = Many l /\ sel = Some (map item_uri l)).
Proof.
  unfold afterPrompt. destruct res as [|i|l]; cbn [itemsOf].
  - intros [= <-]. by left.
  - destruct (_ && _); [done|]. intros [= <-]. right. left. by exists i.
  - intros Hsel. right. right. exists l. split; [done|].
    destruct l as [|i [|j l]]; try by injection Hsel as <-.
    destruct (_ && _); [done|]. by injection Hsel as <-.
Qed.

Lemma ignored_lineEntry (l : string) : isIgnoredLine l = true -> lineEntry l = None.
Proof. unfold isIgnoredLine, lineEntry. by intros ->. Qed.

Lemma fold_skips_ignored (lines : list string) (m : gmap string string) :
  fold_left
    (fun (envMap : gmap string string) (line : string) =>
       match lineEntry line with
       | Some (key, value) => <[key := value]> envMap
       | None => envMap
       end)
    (List.filter (fun l => negb (isIgnoredLine l)) lines) m
  = fold_left
      (fun (envMap : gmap string string) (line : string) =>
         match lineEntry line with
         | Some (key, value) => <[key := value]> envMap
         | None => envMap
         end)
      lines m.
Proof.
  revert m. induction lines as [|l lines IH]; intros m; [done|]. simpl.
  destruct (isIgnoredLine l) eqn:Hl; simpl.
  - by rewrite (ignored_lineEntry _ Hl).
  - apply IH.
Qed.

Lemma forallb_filter (A : Type) (p q : A -> bool) (l : list A) :
  forallb p l = true -> forallb p (List.filter q l) = true.
Proof.
  induction l as [|x l IH]; [done|]. simpl.
  intros [Hx Hl]%andb_true_iff.
  destruct (q x); simpl; rewrite ?Hx; auto.
Qed.

Lemma parse_join_LF (lines : list string) :
  forallb plainLine lines = true ->
  parseEnvContent (Js.join LF lines)
  = fold_left
      (fun (envMap : gmap string string) (line : string) =>
         match lineEntry line with
         | Some (key, value) => <[key := value]> envMap
         | None => envMap
         end)
      lines ∅.
Proof.
  intros Hall. destruct lines as [|l lines]; [done|].
  unfold parseEnvContent. by rewrite splitLines_join_LF.
Qed.

End MoreRunFacts.

(** X18. Whatever [pickWithQuick] returns is the selection made at its last
    prompt. The script splits into the answers that led, whatever follows
    them, from the starting directory to a directory [d'], the answer given
    to the list shown for [d'], and answers that are not used; and the
    result is [undefined] when that answer is a cancellation, the location
    of the item when it is one item, and the locations of the items, in
    order, when it is an array. It never returns a location of its own
    making. *)
Theorem pickWithQuick_returns_an_answer `{Platform} (h : Host)
  (script : list (list Item -> PickResult)) (d : Uri) (opts : Options)
  (sel : option (list Uri)) :
  pickWithQuick h script d opts = Ret sel ->
  exists pre answer post d' dir shown,
    script = pre ++ answer :: post
    /\ (forall rest,
          pickWithQuick h (pre ++ rest) d opts = pickWithQuick h rest d' opts)
    /\ enterBrowsing h opts d' = Ret (dir, shown)
    /\ ((answer shown = Cancelled /\ sel = None)
        \/ (exists i, answer shown = One i /\ sel = Some [item_uri i])
        \/ (exists l, answer shown = Many l /\ sel = Some (map item_uri l))).
Proof.
  revert d. induction script as [|answer script IH]; intros d Hrun.
  - simpl in Hrun. by destruct (enterBrowsing h opts d) as [[dir shown]| |].
  - destruct (enterBrowsing h opts d) as [[dir shown]| |] eqn:Henter;
      try (simpl in Hrun; by rewrite Henter in Hrun).
    rewrite (pickWithQuick_step h opts d dir shown answer script Henter) in Hrun.
    destruct (afterPrompt opts dir (answer shown)) as [next|sel'] eqn:Hafter.
    + destruct (IH next Hrun)
        as (pre & answer' & post & d' & dir' & shown' & -> & Hpre & Henter' & Hsel).
      exists (answer :: pre), answer', post, d', dir', shown'.
      split; [done|]. split; [|done].
      intros rest. cbn [app].
      rewrite (pickWithQuick_step h opts d dir shown answer _ Henter), Hafter.
      apply Hpre.
    + injection Hrun as ->.
      exists [], answer, script, d, dir, shown.
      split; [done|]. split; [done|]. split; [done|].
      by eapply afterPrompt_terminal.
Qed.

Lemma pickWithQuick_returns_an_answer_witness :
  exists pre answer post d' dir shown,
    [Examples.pickNamed "sub"; Examples.pickNamed ".."; Examples.pickNamed "x.env"]
    = pre ++ answer :: post
    /\ (forall rest,
          pickWithQuick Examples.host (pre ++ rest) (Posix.file "/w/a")
            (options (parseArgs (Some Examples.browseArgs)))
          = pickWithQuick Examples.host rest d'
              (options (parseArgs (Some Examples.browseArgs))))
    /\ enterBrowsing Examples.host (options (parseArgs (Some Examples.browseArgs))) d'
       = Ret (dir, shown)
    /\ ((answer shown = Cancelled /\ Some [Posix.file "/w/a/x.env"] = None)
        \/ (exists i, answer shown = One i
                      /\ Some [Posix.file "/w/a/x.env"] = Some [item_uri i])
        \/ (exists l, answer shown = Many l
                      /\ Some [Posix.file "/w/a/x.env"] = Some (map item_uri l))).
Proof.
  apply (pickWithQuick_returns_an_answer Examples.host
           [Examples.pickNamed "sub"; Examples.pickNamed ".."; Examples.pickNamed "x.env"]
           (Posix.file "/w/a") (options (parseArgs (Some Examples.browseArgs)))).
  reflexivity.
Defined.

(** X19. The command called with a bare relative path, under one workspace
    folder: the folder joined with the path is listed, and the entry the
    user picks ends the command, which returns the file-system path of that
    entry. With the default options a directory cannot be entered. *)
Theorem pick_with_bare_path `{Platform} (h : Host) (f : WorkspaceFolder)
  (p : string) (dir : Uri) (shown : list Item)
  (answer : list Item -> PickResult) (script : list (list Item -> PickResult))
  (i : Item) :
  workspaceFolders h = Some [f] ->
  p <> "" ->
  Js.startsWith p "/" = false ->
  ~ PlaceholderOccurs p ->
  enterBrowsing h (options (parseArgs (Some (ParamString p))))
    (Uri_joinPath (wf_uri f) p) = Ret (dir, shown) ->
  answer shown = One i ->
  pickHandler h (answer :: script) (Some (ParamString p))
  = Ret (Some (Uri_fsPath (item_uri i))).
Proof.
  intros Hf Hne Hrel Hp%hasPlaceholder_false Henter Hanswer.
  unfold pickHandler, pickUris.
  set (opts := options (parseArgs (Some (ParamString p)))) in *.
  assert (resolvePath h (defaultWorkspace opts) (defaultInputPath opts)
            (defaultEnvFile opts) (path opts)
          = Ret (Some (Uri_joinPath (wf_uri f) p))) as ->.
  { change (path opts) with (Some p).
    rewrite (resolvePath_plain h _ _ _ p Hne Hrel Hp). by rewrite Hf. }
  change (native opts) with false. cbn [mbind Outcome_bind bind].
  rewrite (pickWithQuick_step h opts _ dir shown answer script Henter).
  unfold afterPrompt. rewrite Hanswer. cbn [itemsOf].
  change (canChangeFolder opts) with false. reflexivity.
Qed.

Lemma pick_with_bare_path_witness :
  pickHandler Examples.host [Examples.pickNamed "y.txt"] (Some (ParamString "a"))
  = Ret (Some "/w/a/y.txt").
Proof.
  refine (pick_with_bare_path Examples.host Examples.folderW "a" (Posix.file "/w/a") _
            (Examples.pickNamed "y.txt") []
            (@Build_Item Posix.platform (Posix.file "/w/a/y.txt") "y.txt"
               FileType.File "y.txt")
            eq_refl _ eq_refl _ eq_refl eq_refl).
  - discriminate.
  - apply hasPlaceholder_false. reflexivity.
Defined.

(** X20. When nothing is selected and no default text is configured, a
    relative default path without placeholder is resolved like a path: with
    one workspace folder the command returns the rendered folder joined
    with it; with no workspace folder it is unresolved, and the command
    returns it as written where [Uri.parse] accepts it and throws where
    [Uri.parse] rejects it. *)
Theorem default_path_fallback `{Platform} (h : Host) (args : option Param)
  (cancelled : list (list Item -> PickResult)) (dp : string) :
  let p := parseArgs args in
  pickUris h cancelled p = Ret None ->
  default_ (output p) = None ->
  defaultPath (output p) = Some dp ->
  dp <> "" ->
  Js.startsWith dp "/" = false ->
  ~ PlaceholderOccurs dp ->
  (forall f, workspaceFolders h = Some [f] ->
             pickHandler h cancelled args
             = Ret (Some (rendered (output p) (Uri_joinPath (wf_uri f) dp))))
  /\ (workspaceFolders h = None \/ workspaceFolders h = Some [] ->
      pickHandler h cancelled args
      = match Uri_parse dp with
        | Some _ => Ret (Some dp)
        | None => Threw
        end).
Proof.
  intros p Hcan Hdefault Hdp Hne Hrel Hno.
  pose proof Hno as Hp%hasPlaceholder_false.
  rewrite (pickHandler_result h cancelled args None Hcan).
  fold p. unfold pickResult. rewrite Hdefault, Hdp. split.
  - intros f Hf.
    by rewrite (resolvePath_plain h _ _ _ dp Hne Hrel Hp), Hf.
  - intros Hnone.
    rewrite (resolvePath_plain h _ _ _ dp Hne Hrel Hp). unfold findFolder.
    destruct Hnone as [-> | ->]; destruct (Uri_parse dp); try done;
      by destruct (defaultWorkspace (options p)) as [[|c name]|].
Qed.

Lemma default_path_fallback_witness :
  pickHandler Examples.host Examples.dismiss (Some Inputs.defaultPathArgs)
  = Ret (Some "/w/d/e").
Proof.
  assert ("d/e" <> "") as Hne by discriminate.
  assert (~ PlaceholderOccurs "d/e") as Hno
    by (apply hasPlaceholder_false; reflexivity).
  exact (proj1 (default_path_fallback Examples.host (Some Inputs.defaultPathArgs)
                  Examples.dismiss "d/e" eq_refl eq_refl eq_refl Hne eq_refl Hno)
           Examples.folderW eq_refl).
Defined.

(** X21. Blank lines and comment lines do not count: an env file made of
    plain lines parses to the same map with these lines removed. *)
Theorem ignored_lines_do_not_count (lines : list string) :
  forallb plainLine lines = true ->
  parseEnvContent (Js.join LF (List.filter (fun l => negb (isIgnoredLine l)) lines))
  = parseEnvContent (Js.join LF lines).
Proof.
  intros Hall.
  rewrite (parse_join_LF lines Hall).
  rewrite (parse_join_LF _ (forallb_filter _ plainLine _ lines Hall)).
  apply fold_skips_ignored.
Qed.

Lemma ignored_lines_do_not_count_witness :
  parseEnvContent (Js.join LF ["A=1"; "B=2"])
  = parseEnvContent (Js.join LF ["# head"; "A=1"; "   "; "B=2"; ""]).
Proof.
  exact (ignored_lines_do_not_count ["# head"; "A=1"; "   "; "B=2"; ""] eq_refl).
Defined.
